(** * A shallow embedding of [bridge_model.py]

    The program builds a parametric steel-girder bridge out of calls to an
    external CAD kernel.  This development embeds the layout arithmetic, the
    component classes and the methods of [BridgeModel], and proves what the
    specification says about them.

    Modelling conventions.
    - Python [int] parameters are [Z]; every configuration in the sources
      ([main] and the test configurations) is made of integers.
    - Python's true division [/] yields a [float].  The model of
      [BridgeModel] divides exactly in [Q] and compares numbers with
      [Qeq], as Python's [==] compares an [int] and a [float] by value.
      A second model of [compute_layout], [compute_layout_float], takes
      Python numbers, [int] or [float], and rounds every [float] result
      to binary64; the two give the same positions while
      [|spacing * (n_girders - 1)|] is below [2^53]
      (lemma [compute_layout_float_exact]), and differ beyond.
    - The CAD kernel is external.  A shape is the term of kernel calls that
      built it ([MakeBox], [Fuse], [Transform], [Compound]); the kernel's own
      failures are not modelled.  [positive_boxes] tells whether a shape
      asks the kernel for boxes of positive dimensions only.
    - A method mutates [self] and may raise: it is a function from the
      object to a [result] holding the updated object or the exception. *)

From Stdlib Require Import ZArith QArith Qabs Qround Qpower Lqa Lia List String
  Bool.
Import ListNotations.

(** ** Exceptions and the error monad *)

Inductive exn : Type :=
| AttributeError
| TypeError
| IndexError
| OverflowError
| ZeroDivisionError.

Inductive result (A : Type) : Type :=
| Ok (a : A)
| Raise (e : exn).

Arguments Ok {A} a.
Arguments Raise {A} e.

Definition bind {A B : Type} (r : result A) (k : A -> result B) : result B :=
  match r with
  | Ok a => k a
  | Raise e => Raise e
  end.

Notation "x <- r ;; k" := (bind r (fun x => k))
  (at level 61, r at next level, right associativity).

(** An attribute that [__init__] does not create is absent until a method
    assigns it; reading it before raises [AttributeError]. *)
Definition getattr {A : Type} (o : option A) : result A :=
  match o with
  | Some a => Ok a
  | None => Raise AttributeError
  end.

(** [l[i]] on a Python list (non-negative index). *)
Definition getitem {A : Type} (l : list A) (i : nat) : result A :=
  match nth_error l i with
  | Some a => Ok a
  | None => Raise IndexError
  end.

(** The object at index [i] of a list, replaced by its mutated state. *)
Fixpoint setitem {A : Type} (l : list A) (i : nat) (a : A) : list A :=
  match l, i with
  | [], _ => []
  | _ :: t, O => a :: t
  | h :: t, S j => h :: setitem t j a
  end.

(** [range(n)] for an [int] [n]: empty when [n <= 0]. *)
Definition range (n : Z) : list Z :=
  map Z.of_nat (seq 0 (Z.to_nat n)).

(** ** Module-level parameters *)

Definition SPAN_LENGTH_L : Z := 12000.
Definition N_GIRDERS : Z := 3.
Definition GIRDER_CENTROID_SPACING : Z := 3000.
Definition GIRDER_OFFSET_FROM_EDGE : Z := 500.
Definition SKEW_ANGLE : Z := 10.

Definition GIRDER_SECTION_D : Z := 900.
Definition GIRDER_SECTION_BF : Z := 300.
Definition GIRDER_SECTION_TF : Z := 16.
Definition GIRDER_SECTION_TW : Z := 10.

Definition DECK_THICKNESS : Z := 200.

Definition PARAPET_WIDTH : Z := 300.
Definition PARAPET_HEIGHT : Z := 1000.

Definition SHOW_AXES : bool := true.
Definition BACKGROUND_COLOR : string := "white".

Definition SAVE_STEP : bool := true.
Definition STEP_FILENAME : string := "bridge_model.step".
Definition SAVE_BREP : bool := true.
Definition BREP_FILENAME : string := "bridge_model.brep".

(** ** The kernel: vectors, transformations and shapes *)

Record gp_Vec : Type := mk_gp_Vec { vx : Q; vy : Q; vz : Q }.

Record gp_Ax1 : Type := mk_gp_Ax1 { ax_point : gp_Vec; ax_direction : gp_Vec }.

(** A [gp_Trsf] after [SetTranslation] or [SetRotation].  The rotation keeps
    the angle in degrees, as [rotate] receives it; the source converts it
    with [math.radians] on the way to the kernel. *)
Inductive gp_Trsf : Type :=
| SetTranslation (v : gp_Vec)
| SetRotation (axis : gp_Ax1) (angle_deg : Q).

#[warnings="-register-all"]
Inductive Shape : Type :=
| BRepPrimAPI_MakeBox (dx dy dz : Q)
| BRepAlgoAPI_Fuse (a b : Shape)
| BRepBuilderAPI_Transform (s : Shape) (t : gp_Trsf)
| TopoDS_Compound (children : list Shape).

Definition is_rotation (t : gp_Trsf) : bool :=
  match t with
  | SetTranslation _ => false
  | SetRotation _ _ => true
  end.

(** Whether a rotation was applied anywhere in the construction of a shape. *)
Fixpoint has_rotation (s : Shape) : bool :=
  match s with
  | BRepPrimAPI_MakeBox _ _ _ => false
  | BRepAlgoAPI_Fuse a b => has_rotation a || has_rotation b
  | BRepBuilderAPI_Transform s' t => is_rotation t || has_rotation s'
  | TopoDS_Compound children => existsb has_rotation children
  end.

(** ** Factory functions *)

Definition create_i_section (d bf tf tw length : Z) : Shape :=
  let web_height := (d - 2 * tf)%Z in
  let bottom_flange :=
    BRepPrimAPI_MakeBox (inject_Z length) (inject_Z bf) (inject_Z tf) in
  let top_flange :=
    BRepPrimAPI_MakeBox (inject_Z length) (inject_Z bf) (inject_Z tf) in
  let trsf := SetTranslation (mk_gp_Vec 0 0 (inject_Z (d - tf))) in
  let top_flange := BRepBuilderAPI_Transform top_flange trsf in
  let web :=
    BRepPrimAPI_MakeBox (inject_Z length) (inject_Z tw) (inject_Z web_height) in
  let trsf :=
    SetTranslation (mk_gp_Vec 0 (inject_Z (bf - tw) / 2) (inject_Z tf)) in
  let web := BRepBuilderAPI_Transform web trsf in
  let shape := BRepAlgoAPI_Fuse bottom_flange top_flange in
  let shape := BRepAlgoAPI_Fuse shape web in
  shape.

Definition create_rectangular_prism (width height length : Z) : Shape :=
  BRepPrimAPI_MakeBox (inject_Z length) (inject_Z width) (inject_Z height).

(** ** The component classes *)

(** The base class: what every component inherits. *)
Class BridgeComponent (C : Type) : Type := {
  get_shape : C -> option Shape;
  set_shape : C -> Shape -> C
}.

(** The kernel's transform of a shape that was never set ([None]) is a
    [TypeError]. *)
Definition translate {C : Type} `{BridgeComponent C}
    (self : C) (dx dy dz : Q) : result C :=
  match get_shape self with
  | None => Raise TypeError
  | Some s =>
      let trsf := SetTranslation (mk_gp_Vec dx dy dz) in
      Ok (set_shape self (BRepBuilderAPI_Transform s trsf))
  end.

Definition rotate {C : Type} `{BridgeComponent C}
    (self : C) (axis_point axis_direction : gp_Vec) (angle_deg : Q)
    : result C :=
  match get_shape self with
  | None => Raise TypeError
  | Some s =>
      let axis := mk_gp_Ax1 axis_point axis_direction in
      let trsf := SetRotation axis angle_deg in
      Ok (set_shape self (BRepBuilderAPI_Transform s trsf))
  end.

Module Girder.
Record t : Type := mk {
  d : Z; bf : Z; tf : Z; tw : Z; length : Z;
  shape : option Shape
}.

Definition init (d bf tf tw length : Z) : t :=
  mk d bf tf tw length None.

#[global] Instance component : BridgeComponent t := {
  get_shape g := shape g;
  set_shape g s := mk (d g) (bf g) (tf g) (tw g) (length g) (Some s)
}.

Definition create_geometry (self : t) : t :=
  set_shape self
    (create_i_section (d self) (bf self) (tf self) (tw self) (length self)).
End Girder.

Module Deck.
Record t : Type := mk {
  width : Z; thickness : Z; length : Z;
  shape : option Shape
}.

Definition init (width thickness length : Z) : t :=
  mk width thickness length None.

#[global] Instance component : BridgeComponent t := {
  get_shape k := shape k;
  set_shape k s := mk (width k) (thickness k) (length k) (Some s)
}.

Definition create_geometry (self : t) : t :=
  set_shape self
    (create_rectangular_prism (width self) (thickness self) (length self)).
End Deck.

Module Parapet.
Record t : Type := mk {
  width : Z; height : Z; length : Z;
  shape : option Shape
}.

Definition init (width height length : Z) : t :=
  mk width height length None.

#[global] Instance component : BridgeComponent t := {
  get_shape p := shape p;
  set_shape p s := mk (width p) (height p) (length p) (Some s)
}.

Definition create_geometry (self : t) : t :=
  set_shape self
    (create_rectangular_prism (width self) (height self) (length self)).
End Parapet.


(** ** The bridge model *)

(** The attributes of a [BridgeModel].  [deck_width], [girder_positions_y]
    and [deck_z_level] are created by [compute_layout], not by [__init__]. *)
Record BridgeModel : Type := mkBridgeModel {
  span_length : Z;
  n_girders : Z;
  spacing : Z;
  overhang : Z;
  skew_angle : Z;
  girder_section_d : Z;
  girder_section_bf : Z;
  girder_section_tf : Z;
  girder_section_tw : Z;
  deck_thickness : Z;
  girders : list Girder.t;
  parapets : list Parapet.t;
  deck : option Deck.t;
  assembly_shape : option Shape;
  deck_width : option Z;
  girder_positions_y : option (list Q);
  deck_z_level : option Z
}.

Definition set_girders (self : BridgeModel) (v : list Girder.t) :=
  mkBridgeModel (span_length self) (n_girders self) (spacing self)
    (overhang self) (skew_angle self) (girder_section_d self)
    (girder_section_bf self) (girder_section_tf self)
    (girder_section_tw self) (deck_thickness self)
    v (parapets self) (deck self) (assembly_shape self)
    (deck_width self) (girder_positions_y self) (deck_z_level self).

Definition set_parapets (self : BridgeModel) (v : list Parapet.t) :=
  mkBridgeModel (span_length self) (n_girders self) (spacing self)
    (overhang self) (skew_angle self) (girder_section_d self)
    (girder_section_bf self) (girder_section_tf self)
    (girder_section_tw self) (deck_thickness self)
    (girders self) v (deck self) (assembly_shape self)
    (deck_width self) (girder_positions_y self) (deck_z_level self).

Definition set_deck (self : BridgeModel) (v : Deck.t) :=
  mkBridgeModel (span_length self) (n_girders self) (spacing self)
    (overhang self) (skew_angle self) (girder_section_d self)
    (girder_section_bf self) (girder_section_tf self)
    (girder_section_tw self) (deck_thickness self)
    (girders self) (parapets self) (Some v) (assembly_shape self)
    (deck_width self) (girder_positions_y self) (deck_z_level self).

Definition set_assembly_shape (self : BridgeModel) (v : Shape) :=
  mkBridgeModel (span_length self) (n_girders self) (spacing self)
    (overhang self) (skew_angle self) (girder_section_d self)
    (girder_section_bf self) (girder_section_tf self)
    (girder_section_tw self) (deck_thickness self)
    (girders self) (parapets self) (deck self) (Some v)
    (deck_width self) (girder_positions_y self) (deck_z_level self).

Definition set_deck_width (self : BridgeModel) (v : Z) :=
  mkBridgeModel (span_length self) (n_girders self) (spacing self)
    (overhang self) (skew_angle self) (girder_section_d self)
    (girder_section_bf self) (girder_section_tf self)
    (girder_section_tw self) (deck_thickness self)
    (girders self) (parapets self) (deck self) (assembly_shape self)
    (Some v) (girder_positions_y self) (deck_z_level self).

Definition set_girder_positions_y (self : BridgeModel) (v : list Q) :=
  mkBridgeModel (span_length self) (n_girders self) (spacing self)
    (overhang self) (skew_angle self) (girder_section_d self)
    (girder_section_bf self) (girder_section_tf self)
    (girder_section_tw self) (deck_thickness self)
    (girders self) (parapets self) (deck self) (assembly_shape self)
    (deck_width self) (Some v) (deck_z_level self).

Definition set_deck_z_level (self : BridgeModel) (v : Z) :=
  mkBridgeModel (span_length self) (n_girders self) (spacing self)
    (overhang self) (skew_angle self) (girder_section_d self)
    (girder_section_bf self) (girder_section_tf self)
    (girder_section_tw self) (deck_thickness self)
    (girders self) (parapets self) (deck self) (assembly_shape self)
    (deck_width self) (girder_positions_y self) (Some v).

(** [BridgeModel.__init__] *)
Definition init (span_length n_girders spacing overhang skew_angle
                 girder_section_d girder_section_bf girder_section_tf
                 girder_section_tw deck_thickness : Z) : BridgeModel :=
  mkBridgeModel span_length n_girders spacing overhang skew_angle
    girder_section_d girder_section_bf girder_section_tf
    girder_section_tw deck_thickness
    [] [] None None None None None.

(** [BridgeModel.compute_layout] *)
Definition compute_layout (self : BridgeModel) : result BridgeModel :=
  let self :=
    set_deck_width self
      (spacing self * (n_girders self - 1) + 2 * overhang self)%Z in
  let start_y :=
    inject_Z ((- spacing self) * (n_girders self - 1)) / 2 in
  let self :=
    set_girder_positions_y self
      (map (fun i => start_y + inject_Z (i * spacing self))
           (range (n_girders self))) in
  let self := set_deck_z_level self (girder_section_d self) in
  Ok self.

(** [BridgeModel.create_components] *)
Definition create_components (self : BridgeModel) : result BridgeModel :=
  positions <- getattr (girder_positions_y self) ;;
  let self :=
    fold_left
      (fun self (y : Q) =>
         let g := Girder.init (girder_section_d self) (girder_section_bf self)
                    (girder_section_tf self) (girder_section_tw self)
                    (span_length self) in
         let g := Girder.create_geometry g in
         set_girders self (girders self ++ [g]))
      positions self in
  width <- getattr (deck_width self) ;;
  let k := Deck.init width (deck_thickness self) (span_length self) in
  let self := set_deck self (Deck.create_geometry k) in
  let self :=
    fold_left
      (fun self (_ : Z) =>
         let p := Parapet.init PARAPET_WIDTH PARAPET_HEIGHT
                    (span_length self) in
         let p := Parapet.create_geometry p in
         set_parapets self (parapets self ++ [p]))
      (range 2) self in
  Ok self.

(** The loop [for g, y in zip(girders, positions): g.translate(0, y, 0)]:
    the girders of the common prefix are moved, the others stay. *)
Fixpoint translate_girders (gs : list Girder.t) (ys : list Q)
    : result (list Girder.t) :=
  match gs, ys with
  | g :: gs', y :: ys' =>
      g' <- translate g 0 y 0 ;;
      rest <- translate_girders gs' ys' ;;
      Ok (g' :: rest)
  | _, _ => Ok gs
  end.

(** [BridgeModel.position_components] *)
Definition position_components (self : BridgeModel) : result BridgeModel :=
  positions <- getattr (girder_positions_y self) ;;
  gs <- translate_girders (girders self) positions ;;
  let self := set_girders self gs in

  k <- getattr (deck self) ;;
  width <- getattr (deck_width self) ;;
  z_level <- getattr (deck_z_level self) ;;
  k <- translate k 0 (inject_Z (- width) / 2) (inject_Z z_level) ;;
  let self := set_deck self k in

  let parapet_z := (z_level + deck_thickness self)%Z in
  let half_w := inject_Z width / 2 in
  p <- getitem (parapets self) 0 ;;
  p <- translate p 0 (- half_w - inject_Z PARAPET_WIDTH / 2)
         (inject_Z parapet_z) ;;
  let self := set_parapets self (setitem (parapets self) 0 p) in
  p <- getitem (parapets self) 1 ;;
  p <- translate p 0 (half_w - inject_Z PARAPET_WIDTH / 2)
         (inject_Z parapet_z) ;;
  let self := set_parapets self (setitem (parapets self) 1 p) in
  Ok self.

(** The shapes of a list of components, as [builder.Add] receives them. *)
Fixpoint get_shapes {C : Type} `{BridgeComponent C} (l : list C)
    : result (list Shape) :=
  match l with
  | [] => Ok []
  | c :: l' =>
      match get_shape c with
      | None => Raise TypeError
      | Some s => rest <- get_shapes l' ;; Ok (s :: rest)
      end
  end.

(** [BridgeModel.assemble] *)
Definition assemble (self : BridgeModel) : result BridgeModel :=
  gs <- get_shapes (girders self) ;;
  k <- getattr (deck self) ;;
  ks <- get_shapes [k] ;;
  ps <- get_shapes (parapets self) ;;
  let compound := TopoDS_Compound (gs ++ ks ++ ps) in
  Ok (set_assembly_shape self compound).

(** ** Display and export

    Both hand shapes to external collaborators and change nothing in the
    model; each call across that boundary is recorded as an event, with the
    argument it received. *)

Inductive Event : Type :=
| InitDisplay
| SetBackgroundColor (r g b : Q)
| DisplayTriedron
| DisplayShape (s : option Shape) (r g b : Q)
| FitAll
| StartDisplay
| PrintLine (msg : string)
| WriteStepFile (s : option Shape) (filename : string)
| BreptoolsWrite (s : option Shape) (filename : string).

(** [BridgeModel.display] *)
Definition display (self : BridgeModel) : result (list Event) :=
  let background :=
    if String.eqb BACKGROUND_COLOR "white"
    then [SetBackgroundColor 1 1 1]
    else [SetBackgroundColor (1 # 2) (1 # 2) (1 # 2)] in
  let axes := if SHOW_AXES then [DisplayTriedron] else [] in
  let gs :=
    map (fun g => DisplayShape (get_shape g) (7 # 10) (7 # 10) (3 # 4))
        (girders self) in
  k <- getattr (deck self) ;;
  let ks := [DisplayShape (get_shape k) (4 # 5) (4 # 5) (4 # 5)] in
  let ps :=
    map (fun p => DisplayShape (get_shape p) (9 # 10) (9 # 10) (17 # 20))
        (parapets self) in
  Ok ([InitDisplay] ++ background ++ axes ++ gs ++ ks ++ ps
        ++ [FitAll; StartDisplay]).

(** [BridgeModel.export] *)
Definition export (self : BridgeModel) : result (list Event) :=
  let step :=
    if SAVE_STEP
    then [PrintLine ("Exporting STEP file: " ++ STEP_FILENAME);
          WriteStepFile (assembly_shape self) STEP_FILENAME]
    else [] in
  let brep :=
    if SAVE_BREP
    then [PrintLine ("Exporting BREP file: " ++ BREP_FILENAME);
          BreptoolsWrite (assembly_shape self) BREP_FILENAME]
    else [] in
  Ok (step ++ brep).

(** The call sequence of [main] on a freshly constructed model: the model
    at the end and the events sent to the viewer and the exporters. *)
Definition run (bridge : BridgeModel) : result (BridgeModel * list Event) :=
  bridge <- compute_layout bridge ;;
  bridge <- create_components bridge ;;
  bridge <- position_components bridge ;;
  bridge <- assemble bridge ;;
  shown <- display bridge ;;
  written <- export bridge ;;
  Ok (bridge, shown ++ written).

Definition main : result (BridgeModel * list Event) :=
  let bridge :=
    init SPAN_LENGTH_L N_GIRDERS GIRDER_CENTROID_SPACING
      GIRDER_OFFSET_FROM_EDGE SKEW_ANGLE
      GIRDER_SECTION_D GIRDER_SECTION_BF
      GIRDER_SECTION_TF GIRDER_SECTION_TW
      DECK_THICKNESS in
  run bridge.

(** ** Python numbers and the layout in binary64

    The model above takes its parameters in [Z] and divides exactly.  The
    program divides with [/], which yields a binary64 [float], and its
    constructor accepts a [float] wherever it accepts an [int].  This
    section models that arithmetic: a number is an [int] or a [float], a
    finite [float] is the rational it denotes, and every operation that
    produces a [float] rounds the exact result to the nearest binary64
    value, ties to even.  The sign of a zero is not kept. *)

Inductive float : Type :=
| Finite (q : Q)
| Infinity (negative : bool)
| NaN.

Inductive number : Type :=
| Int (z : Z)
| Float (x : float).

(** For [q > 0], the exponent [e] with [2^e <= q < 2^(e+1)]. *)
Definition Qlog2 (q : Q) : Z :=
  let e := (Z.log2 (Qnum q) - Z.log2 (Zpos (Qden q)))%Z in
  if Qle_bool (2 ^ e) q then e else (e - 1)%Z.

(** The nearest integer, the even one of two that are equally near. *)
Definition round_half_even (q : Q) : Z :=
  let f := Qfloor q in
  match Qcompare (q - inject_Z f) (1 # 2) with
  | Lt => f
  | Gt => (f + 1)%Z
  | Eq => if Z.even f then f else (f + 1)%Z
  end.

(** Rounding to binary64 with an unbounded exponent range above: 53
    significant bits, and steps of [2^-1074] below [2^-1022]. *)
Definition round64 (q : Q) : Q :=
  if Qeq_bool q 0 then 0 else
  let a := Qabs q in
  let e := Z.max (Qlog2 a) (-1022) in
  let u := 2 ^ (e - 52) in
  let r := inject_Z (round_half_even (a / u)) * u in
  if Qle_bool 0 q then r else - r.

(** A rounded value that binary64 cannot hold. *)
Definition overflows (r : Q) : bool := Qle_bool (2 ^ 1024) (Qabs r).

Definition is_negative (q : Q) : bool := negb (Qle_bool 0 q).

(** The [float] an arithmetic operation returns for the exact result
    [q]. *)
Definition ieee (q : Q) : float :=
  let r := round64 q in
  if overflows r then Infinity (is_negative q) else Finite r.

Definition float_neg (x : float) : float :=
  match x with
  | Finite q => Finite (- q)
  | Infinity s => Infinity (negb s)
  | NaN => NaN
  end.

Definition float_add (x y : float) : float :=
  match x, y with
  | Finite a, Finite b => ieee (a + b)
  | Infinity s, Finite _ => Infinity s
  | Finite _, Infinity s => Infinity s
  | Infinity s, Infinity s' => if Bool.eqb s s' then Infinity s else NaN
  | _, _ => NaN
  end.

Definition float_mul (x y : float) : float :=
  match x, y with
  | Finite a, Finite b => ieee (a * b)
  | Infinity s, Finite b =>
      if Qeq_bool b 0 then NaN else Infinity (xorb s (is_negative b))
  | Finite a, Infinity s =>
      if Qeq_bool a 0 then NaN else Infinity (xorb (is_negative a) s)
  | Infinity s, Infinity s' => Infinity (xorb s s')
  | _, _ => NaN
  end.

(** [x / y] for a divisor that is not zero. *)
Definition float_div (x y : float) : float :=
  match x, y with
  | Finite a, Finite b => ieee (a / b)
  | Infinity s, Finite b => Infinity (xorb s (is_negative b))
  | Finite _, Infinity _ => Finite 0
  | _, _ => NaN
  end.

(** [float(z)] for an [int]: correctly rounded, [OverflowError] when the
    [int] is too large. *)
Definition float_of_int (z : Z) : result float :=
  let r := round64 (inject_Z z) in
  if overflows r then Raise OverflowError else Ok (Finite r).

Definition to_float (x : number) : result float :=
  match x with
  | Int z => float_of_int z
  | Float f => Ok f
  end.

(** [-x], [x + y], [x * y]: [int] arithmetic on two [int]s, [float]
    arithmetic as soon as one operand is a [float]. *)
Definition neg (x : number) : number :=
  match x with
  | Int z => Int (- z)
  | Float f => Float (float_neg f)
  end.

Definition add (x y : number) : result number :=
  match x, y with
  | Int a, Int b => Ok (Int (a + b))
  | _, _ =>
      fx <- to_float x ;;
      fy <- to_float y ;;
      Ok (Float (float_add fx fy))
  end.

Definition mul (x y : number) : result number :=
  match x, y with
  | Int a, Int b => Ok (Int (a * b))
  | _, _ =>
      fx <- to_float x ;;
      fy <- to_float y ;;
      Ok (Float (float_mul fx fy))
  end.

(** [x / y]: always a [float]; the quotient of two [int]s is rounded
    once, from the exact quotient. *)
Definition true_div (x y : number) : result number :=
  match x, y with
  | Int a, Int b =>
      if (b =? 0)%Z then Raise ZeroDivisionError
      else
        let r := round64 (inject_Z a / inject_Z b) in
        if overflows r then Raise OverflowError else Ok (Float (Finite r))
  | _, _ =>
      fx <- to_float x ;;
      fy <- to_float y ;;
      match fy with
      | Finite b =>
          if Qeq_bool b 0 then Raise ZeroDivisionError
          else Ok (Float (float_div fx fy))
      | _ => Ok (Float (float_div fx fy))
      end
  end.

(** A list comprehension whose element expression may raise. *)
Fixpoint comprehension {A B : Type} (f : A -> result B) (l : list A)
    : result (list B) :=
  match l with
  | [] => Ok []
  | a :: l' =>
      b <- f a ;;
      rest <- comprehension f l' ;;
      Ok (b :: rest)
  end.

(** [BridgeModel.compute_layout] on Python numbers: from the four
    attributes it reads to the three it assigns, [deck_width],
    [girder_positions_y] and [deck_z_level].  The girder count is an
    [int], as [range] requires. *)
Definition compute_layout_float
    (spacing : number) (n_girders : Z) (overhang girder_section_d : number)
    : result (number * list number * number) :=
  t <- mul spacing (Int (n_girders - 1)) ;;
  u <- mul (Int 2) overhang ;;
  deck_width <- add t u ;;
  t <- mul (neg spacing) (Int (n_girders - 1)) ;;
  start_y <- true_div t (Int 2) ;;
  girder_positions_y <-
    comprehension
      (fun i => t <- mul (Int i) spacing ;; add start_y t)
      (range n_girders) ;;
  let deck_z_level := girder_section_d in
  Ok (deck_width, girder_positions_y, deck_z_level).

(** The finite [float] that holds the rational [q]. *)
Definition finite (q : Q) : number := Float (Finite q).

(** ** What the kernel is asked to build *)




(** ** Vocabulary of the statements *)

(** What [compute_layout] assigns to [girder_positions_y], as a function of
    the two attributes it reads. *)
Definition positions_of (spacing n_girders : Z) : list Q :=
  map (fun i =>
         inject_Z ((- spacing) * (n_girders - 1)) / 2 + inject_Z (i * spacing))
      (range n_girders).

(** Numeric equality of two lists of positions, element by element. *)
Definition positions_eq (xs ys : list Q) : Prop := Forall2 Qeq xs ys.

(** The attributes that [__init__] receives are the same in two models. *)
Definition same_parameters (a b : BridgeModel) : Prop :=
  span_length a = span_length b /\ n_girders a = n_girders b /\
  spacing a = spacing b /\ overhang a = overhang b /\
  skew_angle a = skew_angle b /\
  girder_section_d a = girder_section_d b /\
  girder_section_bf a = girder_section_bf b /\
  girder_section_tf a = girder_section_tf b /\
  girder_section_tw a = girder_section_tw b /\
  deck_thickness a = deck_thickness b.

(** The components and the assembly are the same in two models. *)
Definition same_components (a b : BridgeModel) : Prop :=
  girders a = girders b /\ parapets a = parapets b /\
  deck a = deck b /\ assembly_shape a = assembly_shape b.

(** The girder, the deck and the parapet that [create_components] builds
    for a model, once their geometry is created. *)
Definition new_girder (self : BridgeModel) : Girder.t :=
  Girder.create_geometry
    (Girder.init (girder_section_d self) (girder_section_bf self)
       (girder_section_tf self) (girder_section_tw self) (span_length self)).

Definition new_deck (self : BridgeModel) (width : Z) : Deck.t :=
  Deck.create_geometry
    (Deck.init width (deck_thickness self) (span_length self)).

Definition new_parapet (self : BridgeModel) : Parapet.t :=
  Parapet.create_geometry
    (Parapet.init PARAPET_WIDTH PARAPET_HEIGHT (span_length self)).

(** [k] successive calls of a method on the same object. *)
Fixpoint calls (k : nat) (method : BridgeModel -> result BridgeModel)
    (self : BridgeModel) : result BridgeModel :=
  match k with
  | O => Ok self
  | S k' => self <- method self ;; calls k' method self
  end.

(** [c'] is [c] after one translation by a vector equal to
    [(dx, dy, dz)]. *)
Definition translated_by {C : Type} `{BridgeComponent C}
    (c c' : C) (dx dy dz : Q) : Prop :=
  exists s v,
    get_shape c = Some s /\
    c' = set_shape c (BRepBuilderAPI_Transform s (SetTranslation v)) /\
    vx v == dx /\ vy v == dy /\ vz v == dz.

(** Whether [rotate] was applied to a component, to a component or the
    assembly of a model, to a shape handed to the viewer or an exporter. *)
Definition component_rotated {C : Type} `{BridgeComponent C} (c : C) : bool :=
  match get_shape c with
  | Some s => has_rotation s
  | None => false
  end.

Definition model_rotated (self : BridgeModel) : bool :=
  existsb component_rotated (girders self)
  || existsb component_rotated (parapets self)
  || match deck self with
     | Some k => component_rotated k
     | None => false
     end
  || match assembly_shape self with
     | Some s => has_rotation s
     | None => false
     end.

Definition event_rotated (e : Event) : bool :=
  match e with
  | DisplayShape (Some s) _ _ _ => has_rotation s
  | WriteStepFile (Some s) _ => has_rotation s
  | BreptoolsWrite (Some s) _ => has_rotation s
  | _ => false
  end.

(** A shape after one more translation. *)
Definition translation (s : Shape) (dx dy dz : Q) : Shape :=
  BRepBuilderAPI_Transform s (SetTranslation (mk_gp_Vec dx dy dz)).

(** ** The test script [test_bridge_model.py]

    The two tests that drive a [BridgeModel].  A test body runs inside
    [try]/[except Exception]: an exception or a failed [assert] makes the
    case fail, so the outcome of a case is a boolean. *)

Module Config.
Record t : Type := mk {
  name : string;
  span_length : Z;
  n_girders : Z;
  spacing : Z;
  overhang : Z;
  skew_angle : Z;
  girder_d : Z;
  girder_bf : Z;
  girder_tf : Z;
  girder_tw : Z;
  deck_thickness : Z
}.
End Config.






Module Case.
Record t : Type := mk {
  name : string;
  n_girders : option Z;
  skew_angle : option Z;
  should_pass : bool
}.
End Case.





(** ** Vocabulary of the further properties *)

(** Every attribute but the girders, the deck and the parapets is the
    same in two models. *)
Definition same_but_components (a b : BridgeModel) : Prop :=
  same_parameters a b /\
  assembly_shape a = assembly_shape b /\
  deck_width a = deck_width b /\
  girder_positions_y a = girder_positions_y b /\
  deck_z_level a = deck_z_level b.



(** * Properties *)

(** ** Auxiliary facts on [range], lists and the error monad *)

Lemma range_length (n : Z) : List.length (range n) = Z.to_nat n.
Proof.
  unfold range. now rewrite length_map, length_seq.
Qed.

Lemma range_nth (n : Z) (i : nat) :
  (i < Z.to_nat n)%nat -> nth i (range n) 0%Z = Z.of_nat i.
Proof.
  intros Hi. unfold range.
  change 0%Z with (Z.of_nat 0).
  rewrite map_nth, seq_nth by assumption.
  reflexivity.
Qed.

Lemma nth_map_in_range {A B : Type} (f : A -> B) (l : list A)
    (i : nat) (da : A) (db : B) :
  (i < List.length l)%nat -> nth i (map f l) db = f (nth i l da).
Proof.
  intros Hi.
  rewrite (nth_indep (map f l) db (f da)) by (now rewrite length_map).
  apply map_nth.
Qed.

(** ** The layout *)

Lemma compute_layout_eq (self : BridgeModel) :
  compute_layout self =
  Ok (set_deck_z_level
        (set_girder_positions_y
           (set_deck_width self
              (spacing self * (n_girders self - 1) + 2 * overhang self)%Z)
           (positions_of (spacing self) (n_girders self)))
        (girder_section_d self)).
Proof.
  reflexivity.
Qed.

Lemma positions_of_length (s n : Z) :
  List.length (positions_of s n) = Z.to_nat n.
Proof.
  unfold positions_of. now rewrite length_map, range_length.
Qed.


Lemma positions_of_nth (s n : Z) (i : nat) :
  (i < Z.to_nat n)%nat ->
  nth i (positions_of s n) 0 =
  inject_Z ((- s) * (n - 1)) / 2 + inject_Z (Z.of_nat i * s).
Proof.
  intros Hi. unfold positions_of.
  rewrite (nth_map_in_range _ _ _ 0%Z) by (now rewrite range_length).
  now rewrite range_nth.
Qed.

(** Every position is a half-integer: twice the index minus [n - 1], times
    half the spacing. *)
Lemma positions_of_nth_half (s n : Z) (i : nat) :
  (i < Z.to_nat n)%nat ->
  nth i (positions_of s n) 0 ==
  inject_Z ((2 * Z.of_nat i - (n - 1)) * s) / 2.
Proof.
  intros Hi. rewrite positions_of_nth by assumption.
  replace ((2 * Z.of_nat i - (n - 1)) * s)%Z
    with ((- s) * (n - 1) + 2 * (Z.of_nat i * s))%Z by ring.
  rewrite inject_Z_plus, (inject_Z_mult 2).
  change (inject_Z 2) with 2. field.
Qed.

Lemma half_sum (a b : Z) :
  inject_Z a / 2 + inject_Z b / 2 == inject_Z (a + b) / 2.
Proof.
  rewrite inject_Z_plus. field.
Qed.

Lemma half_diff (a b : Z) :
  inject_Z a / 2 - inject_Z b / 2 == inject_Z (a - b) / 2.
Proof.
  unfold Z.sub. rewrite inject_Z_plus, inject_Z_opp. field.
Qed.

Lemma half_double (a : Z) : inject_Z (2 * a) / 2 == inject_Z a.
Proof.
  rewrite inject_Z_mult. change (inject_Z 2) with 2. field.
Qed.

Lemma half_lt (a b : Z) : (a < b)%Z -> inject_Z a / 2 < inject_Z b / 2.
Proof.
  intros Hab. rewrite Zlt_Qlt in Hab.
  apply Qmult_lt_compat_r; [reflexivity | exact Hab].
Qed.

(** ** C1 *)

(** C1. For every model, [compute_layout] sets [deck_width] to
    [spacing * (n_girders - 1) + 2 * overhang]; with one girder that is
    [2 * overhang], and with 3 girders, spacing 3000 and overhang 500 it
    is 7000. *)
Theorem compute_layout_deck_width :
  (forall self : BridgeModel,
     exists self',
       compute_layout self = Ok self' /\
       deck_width self' =
       Some (spacing self * (n_girders self - 1) + 2 * overhang self)%Z) /\
  (forall L s o a d bf tf tw t : Z,
     exists self',
       compute_layout (init L 1 s o a d bf tf tw t) = Ok self' /\
       deck_width self' = Some (2 * o)%Z) /\
  (forall L a d bf tf tw t : Z,
     exists self',
       compute_layout (init L 3 3000 500 a d bf tf tw t) = Ok self' /\
       deck_width self' = Some 7000%Z).
Proof.
  split; [| split].
  - intros self. eexists. split; [apply compute_layout_eq | reflexivity].
  - intros. eexists. split; [apply compute_layout_eq |].
    cbn [deck_width set_deck_z_level set_girder_positions_y set_deck_width
         spacing n_girders overhang init].
    f_equal. ring.
  - intros. eexists. split; [apply compute_layout_eq | reflexivity].
Qed.

(** ** Rounding to binary64 *)

Lemma Qpower2_pos (e : Z) : 0 < 2 ^ e.
Proof.
  apply Qpower_0_lt. reflexivity.
Qed.

Lemma Qpower2_Z (k : Z) : (0 <= k)%Z -> 2 ^ k == inject_Z (2 ^ k).
Proof.
  intros Hk. rewrite Zpower_Qpower by exact Hk. reflexivity.
Qed.

Lemma inject_Z_pos (z : Z) : (0 < z)%Z -> 0 < inject_Z z.
Proof.
  intros Hz. change 0 with (inject_Z 0). now rewrite <- Zlt_Qlt.
Qed.

Lemma Qlog2_lower (q : Q) : 0 < q -> 2 ^ Qlog2 q <= q.
Proof.
  intros Hq. unfold Qlog2.
  set (p := Qnum q). set (b := Zpos (Qden q)).
  destruct (Qle_bool (2 ^ (Z.log2 p - Z.log2 b)) q) eqn:Hle.
  - now apply Qle_bool_iff.
  - assert (Hp : (0 < p)%Z).
    { unfold Qlt in Hq. cbn in Hq. unfold p. lia. }
    assert (Hb : (0 < b)%Z) by (unfold b; lia).
    destruct (Z.log2_spec p Hp) as (Hp1 & _).
    destruct (Z.log2_spec b Hb) as (_ & Hb2).
    pose proof (Z.log2_nonneg p) as Hlp.
    pose proof (Z.log2_nonneg b) as Hlb.
    replace (Z.log2 p - Z.log2 b - 1)%Z
      with (Z.log2 p - Z.succ (Z.log2 b))%Z by lia.
    rewrite Qpower_minus by discriminate.
    rewrite (Qpower2_Z (Z.log2 p)) by exact Hlp.
    rewrite (Qpower2_Z (Z.succ (Z.log2 b))) by lia.
    assert (Eq : q == inject_Z p / inject_Z b).
    { unfold p, b. destruct q as [qn qd]. cbn [Qnum Qden].
      apply Qmake_Qdiv. }
    rewrite Eq.
    assert (H2b : 0 < inject_Z (2 ^ Z.succ (Z.log2 b))).
    { apply inject_Z_pos. lia. }
    assert (Hb' : 0 < inject_Z b) by (apply inject_Z_pos; exact Hb).
    apply Qle_shift_div_l; [exact Hb' |].
    unfold Qdiv. rewrite <- Qmult_assoc, (Qmult_comm (/ _)), Qmult_assoc.
    apply Qle_shift_div_r; [exact H2b |].
    rewrite <- !inject_Z_mult, <- Zle_Qle. nia.
Qed.

Lemma round_half_even_int (q : Q) (k : Z) :
  q == inject_Z k -> round_half_even q = k.
Proof.
  intros Hq. unfold round_half_even.
  assert (Hf : Qfloor q = k) by (rewrite (Qfloor_comp _ _ Hq); apply Qfloor_Z).
  rewrite Hf.
  assert (H : q - inject_Z k < 1 # 2) by lra.
  rewrite Qlt_alt in H. rewrite H. reflexivity.
Qed.

Lemma round64_exact (q : Q) (m j : Z) :
  q == inject_Z m * 2 ^ j ->
  (Z.abs m < 2 ^ 53)%Z -> (-1074 <= j)%Z ->
  round64 q == q.
Proof.
  intros Hq Hm Hj. unfold round64.
  destruct (Qeq_bool q 0) eqn:H0.
  - apply Qeq_bool_iff in H0. now rewrite H0.
  - assert (Hq0 : ~ q == 0).
    { intros H. apply Qeq_bool_iff in H. congruence. }
    set (a := Qabs q).
    assert (Ea : a == inject_Z (Z.abs m) * 2 ^ j).
    { unfold a. rewrite Hq, Qabs_Qmult.
      rewrite (Qabs_pos (2 ^ j)) by (apply Qlt_le_weak, Qpower2_pos).
      unfold inject_Z. rewrite <- Zabs_Qabs. reflexivity. }
    assert (Ha : 0 < a).
    { destruct (Qle_lt_or_eq 0 a (Qabs_nonneg q)) as [H | H]; [exact H |].
      exfalso. apply Hq0. unfold a in H.
      destruct (Qabs_Qle_condition q 0) as (Hc & _).
      rewrite <- H in Hc. specialize (Hc (Qle_refl _)).
      apply Qle_antisym; [apply Hc |]. 
      setoid_replace 0 with (- 0) by reflexivity. apply Hc. }
    set (e := Z.max (Qlog2 a) (-1022)).
    assert (He : (e - 52 <= j)%Z).
    { assert (Hlt : 2 ^ Qlog2 a < 2 ^ (53 + j)).
      { apply Qle_lt_trans with a; [apply Qlog2_lower; exact Ha |].
        rewrite Ea, Qpower_plus by discriminate.
        apply Qmult_lt_compat_r; [apply Qpower2_pos |].
        rewrite Qpower2_Z by lia. rewrite <- Zlt_Qlt. exact Hm. }
      apply Qpower_lt_compat_l_inv in Hlt; [| reflexivity].
      unfold e. lia. }
    set (k := (j - (e - 52))%Z).
    assert (Hk : (0 <= k)%Z) by (unfold k; lia).
    assert (Ej : 2 ^ j == 2 ^ k * 2 ^ (e - 52)).
    { rewrite <- Qpower_plus by discriminate.
      replace (k + (e - 52))%Z with j by (unfold k; lia). reflexivity. }
    assert (HU : ~ 2 ^ (e - 52) == 0) by (apply Qpower_not_0; discriminate).
    assert (Eau : a / 2 ^ (e - 52) == inject_Z (Z.abs m * 2 ^ k)).
    { rewrite Ea, Ej, inject_Z_mult, <- (Qpower2_Z k) by exact Hk.
      revert HU. generalize (2 ^ (e - 52)) (2 ^ k). intros U K HU.
      field. exact HU. }
    rewrite (round_half_even_int _ _ Eau).
    assert (Er : inject_Z (Z.abs m * 2 ^ k) * 2 ^ (e - 52) == a).
    { rewrite <- Eau, Qmult_comm. apply Qmult_div_r.
      apply Qpower_not_0. discriminate. }
    destruct (Qle_bool 0 q) eqn:Hs.
    + rewrite Er. apply Qle_bool_iff in Hs. apply Qabs_pos. exact Hs.
    + assert (Hneg : q <= 0).
      { destruct (Qlt_le_dec q 0) as [H | H]; [now apply Qlt_le_weak |].
        apply Qle_bool_iff in H. congruence. }
      rewrite Er. unfold a. rewrite (Qabs_neg q Hneg). ring.
Qed.

Lemma round64_small (q : Q) (m j : Z) :
  q == inject_Z m * 2 ^ j ->
  (Z.abs m < 2 ^ 53)%Z -> (-1074 <= j <= 0)%Z ->
  round64 q == q /\ overflows (round64 q) = false.
Proof.
  intros Hq Hm (Hj & Hj0).
  assert (E : round64 q == q) by (apply (round64_exact q m j); assumption).
  split; [exact E |].
  unfold overflows.
  destruct (Qle_bool (2 ^ 1024) (Qabs (round64 q))) eqn:Hle; [| reflexivity].
  exfalso. apply Qle_bool_iff in Hle.
  rewrite E, Hq, Qabs_Qmult in Hle.
  rewrite (Qabs_pos (2 ^ j)) in Hle by (apply Qlt_le_weak, Qpower2_pos).
  assert (H1 : Qabs (inject_Z m) < 2 ^ 53).
  { unfold inject_Z. rewrite <- Zabs_Qabs.
    change (Z.abs m # 1) with (inject_Z (Z.abs m)).
    rewrite (Qpower2_Z 53) by lia. now rewrite <- Zlt_Qlt. }
  assert (H2 : 2 ^ j <= 1).
  { change 1 with (2 ^ 0). apply Qpower_le_compat_l; [exact Hj0 | discriminate]. }
  assert (H3 : 0 < 2 ^ j) by apply Qpower2_pos.
  assert (H4 : 0 <= Qabs (inject_Z m)) by apply Qabs_nonneg.
  assert (H5 : (2 ^ 53 : Q) < 2 ^ 1024).
  { apply Qpower_lt_compat_l; [lia | reflexivity]. }
  assert (H6 : Qabs (inject_Z m) * 2 ^ j <= Qabs (inject_Z m)).
  { rewrite <- (Qmult_1_r (Qabs (inject_Z m))) at 2.
    rewrite !(Qmult_comm (Qabs (inject_Z m))).
    apply Qmult_le_compat_r; assumption. }
  lra.
Qed.

Lemma round64_half (q : Q) (m : Z) :
  q == inject_Z m / 2 ->
  (Z.abs m < 2 ^ 53)%Z ->
  round64 q == q /\ overflows (round64 q) = false.
Proof.
  intros Hq Hm. apply (round64_small q m (-1)); [| exact Hm | lia].
  rewrite Hq. reflexivity.
Qed.

Lemma round64_int (q : Q) (m : Z) :
  q == inject_Z m ->
  (Z.abs m < 2 ^ 53)%Z ->
  round64 q == q /\ overflows (round64 q) = false.
Proof.
  intros Hq Hm. apply (round64_small q m 0); [| exact Hm | lia].
  rewrite Hq. change (2 ^ 0) with 1. ring.
Qed.

(** The rounding on values whose binary64 neighbours are known: 3.3 is
    [0x1.a666666666666p+1], 0.1 is [0x1.999999999999ap-4], [2^53 + 1] is
    a tie that goes to [2^53], and its half a tie that goes to [2^52]. *)
Lemma round64_samples :
  round64 (33 # 10) == 7430939385161318 # 2251799813685248 /\
  round64 (1 # 10) == 7205759403792794 # 72057594037927936 /\
  round64 (inject_Z 9007199254740993) == 9007199254740992 /\
  round64 (inject_Z 9007199254740993 / 2) == 4503599627370496.
Proof.
  repeat split; vm_compute; reflexivity.
Qed.

(** ** The layout in binary64 and in exact arithmetic *)

Lemma range_In (n i : Z) : In i (range n) -> (0 <= i < n)%Z.
Proof.
  unfold range. intros Hi. apply in_map_iff in Hi.
  destruct Hi as (k & <- & Hk). apply in_seq in Hk. lia.
Qed.

Lemma comprehension_map {A B : Type} (f : A -> result B) (g : A -> B)
    (l : list A) :
  (forall a, In a l -> f a = Ok (g a)) ->
  comprehension f l = Ok (map g l).
Proof.
  intros Hf. induction l as [| a l IH]; cbn [comprehension map].
  - reflexivity.
  - rewrite (Hf a) by (left; reflexivity). cbn [bind].
    rewrite IH by (intros x Hx; apply Hf; right; exact Hx).
    reflexivity.
Qed.

Lemma Forall2_map_In {A B : Type} (R : B -> B -> Prop) (h h' : A -> B)
    (l : list A) :
  (forall a, In a l -> R (h a) (h' a)) ->
  Forall2 R (map h l) (map h' l).
Proof.
  intros HR. induction l as [| a l IH]; cbn [map]; constructor.
  - apply HR. left. reflexivity.
  - apply IH. intros x Hx. apply HR. right. exact Hx.
Qed.

Lemma positions_eq_nth (ys zs : list Q) (i : nat) :
  positions_eq ys zs -> nth i ys 0 == nth i zs 0.
Proof.
  intros H. revert i. induction H as [| y z ys zs Hyz _ IH]; intros i.
  - destruct i; reflexivity.
  - destruct i as [| i]; cbn [nth]; [exact Hyz | apply IH].
Qed.

Lemma positions_eq_trans (xs ys zs : list Q) :
  positions_eq xs ys -> positions_eq ys zs -> positions_eq xs zs.
Proof.
  intros H. revert zs. induction H as [| x y xs ys Hxy _ IH]; intros zs Hz.
  - inversion Hz. constructor.
  - inversion Hz as [| y' z ys' zs' Hyz Hrest]; subst.
    constructor; [now rewrite Hxy | now apply IH].
Qed.

(** While [|spacing * (n_girders - 1)|] stays below [2^53], every value
    the layout computes is a half-integer that binary64 holds: no
    operation rounds or overflows, and the positions are those of the
    model in exact arithmetic. *)
Lemma compute_layout_float_exact (s n o d : Z) :
  (Z.abs (s * (n - 1)) < 2 ^ 53)%Z ->
  exists ys : list Q,
    compute_layout_float (Int s) n (Int o) (Int d) =
      Ok (Int (s * (n - 1) + 2 * o), map finite ys, Int d) /\
    positions_eq ys (positions_of s n).
Proof.
  intros Hb.
  set (r0 := round64 (inject_Z (- s * (n - 1)) / inject_Z 2)).
  assert (Habs : (Z.abs (- s * (n - 1)) < 2 ^ 53)%Z).
  { replace (- s * (n - 1))%Z with (- (s * (n - 1)))%Z by ring.
    now rewrite Z.abs_opp. }
  destruct (round64_half (inject_Z (- s * (n - 1)) / inject_Z 2)
              (- s * (n - 1)) (Qeq_refl _) Habs) as (E0 & O0).
  fold r0 in E0, O0.
  assert (Hi : forall i, In i (range n) ->
            (Z.abs (i * s) < 2 ^ 53)%Z /\
            (Z.abs (- s * (n - 1) + 2 * (i * s)) < 2 ^ 53)%Z).
  { intros i Hin. apply range_In in Hin.
    rewrite Z.abs_mul in Hb.
    replace (- s * (n - 1) + 2 * (i * s))%Z with ((2 * i - (n - 1)) * s)%Z
      by ring.
    rewrite !Z.abs_mul.
    assert (H1 : (Z.abs i <= Z.abs (n - 1))%Z) by lia.
    assert (H2 : (Z.abs (2 * i - (n - 1)) <= Z.abs (n - 1))%Z) by lia.
    pose proof (Z.abs_nonneg s) as Hs.
    split; nia. }
  exists (map (fun i => round64 (r0 + round64 (inject_Z (i * s)))) (range n)).
  split.
  - unfold compute_layout_float.
    cbn [mul neg add bind true_div].
    change (2 =? 0)%Z with false. cbv iota.
    fold r0. rewrite O0. cbn [bind].
    rewrite (comprehension_map _
               (fun i => finite (round64 (r0 + round64 (inject_Z (i * s)))))).
    + cbn [bind]. rewrite map_map. reflexivity.
    + intros i Hin. destruct (Hi i Hin) as (Hi1 & Hi2).
      destruct (round64_int (inject_Z (i * s)) (i * s) (Qeq_refl _) Hi1)
        as (E1 & O1).
      cbn [mul bind add to_float]. unfold float_of_int.
      rewrite O1. cbn [bind float_add]. unfold ieee.
      assert (E2 : r0 + round64 (inject_Z (i * s))
                   == inject_Z (- s * (n - 1) + 2 * (i * s)) / 2).
      { rewrite E0, E1, inject_Z_plus, (inject_Z_mult 2).
        change (inject_Z 2) with 2. field. }
      destruct (round64_half _ _ E2 Hi2) as (_ & O2).
      rewrite O2. reflexivity.
  - unfold positions_of. apply Forall2_map_In.
    intros i Hin. destruct (Hi i Hin) as (Hi1 & Hi2).
    destruct (round64_int (inject_Z (i * s)) (i * s) (Qeq_refl _) Hi1)
      as (E1 & _).
    assert (E2 : r0 + round64 (inject_Z (i * s))
                 == inject_Z (- s * (n - 1) + 2 * (i * s)) / 2).
    { rewrite E0, E1, inject_Z_plus, (inject_Z_mult 2).
      change (inject_Z 2) with 2. field. }
    destruct (round64_half _ _ E2 Hi2) as (E3 & _).
    rewrite E3, E0, E1. reflexivity.
Qed.

(** What the exact positions satisfy, for any list numerically equal to
    them. *)
Lemma positions_properties (s n : Z) (ys : list Q) :
  (1 <= n)%Z -> (0 < s)%Z ->
  positions_eq ys (positions_of s n) ->
  Z.of_nat (List.length ys) = n /\
  nth 0 ys 0 == - inject_Z s * (inject_Z n - 1) / 2 /\
  (forall i : nat, (S i < List.length ys)%nat ->
     nth (S i) ys 0 - nth i ys 0 == inject_Z s /\
     nth i ys 0 < nth (S i) ys 0) /\
  (forall i : nat, (i < List.length ys)%nat ->
     nth i ys 0 + nth (List.length ys - 1 - i) ys 0 == 0) /\
  (n = 1%Z -> positions_eq ys [0]) /\
  (n = 4%Z -> s = 2500%Z ->
     positions_eq ys [-3750 # 1; -1250 # 1; 1250 # 1; 3750 # 1]).
Proof.
  intros Hn Hs Hys.
  assert (Hlen : List.length ys = Z.to_nat n).
  { rewrite (Forall2_length Hys). apply positions_of_length. }
  assert (Hnth : forall i : nat, (i < Z.to_nat n)%nat ->
            nth i ys 0 == inject_Z ((2 * Z.of_nat i - (n - 1)) * s) / 2).
  { intros i Hi. rewrite (positions_eq_nth _ _ i Hys).
    now apply positions_of_nth_half. }
  rewrite Hlen.
  split; [lia |].
  split.
  { rewrite Hnth by lia.
    change (Z.of_nat 0) with 0%Z.
    replace ((2 * 0 - (n - 1)) * s)%Z with (- s * (n - 1))%Z by ring.
    rewrite inject_Z_mult, inject_Z_opp.
    unfold Z.sub. rewrite inject_Z_plus. change (inject_Z (- (1))) with (-1).
    field. }
  split.
  { intros i Hi.
    rewrite !Hnth by lia.
    split.
    - rewrite half_diff.
      replace ((2 * Z.of_nat (S i) - (n - 1)) * s
               - (2 * Z.of_nat i - (n - 1)) * s)%Z with (2 * s)%Z by lia.
      apply half_double.
    - apply half_lt. nia. }
  split.
  { intros i Hi.
    rewrite !Hnth by lia.
    rewrite half_sum.
    replace ((2 * Z.of_nat i - (n - 1)) * s
             + (2 * Z.of_nat (Z.to_nat n - 1 - i) - (n - 1)) * s)%Z
      with 0%Z by nia.
    reflexivity. }
  split.
  { intros H1. apply (positions_eq_trans _ _ _ Hys). rewrite H1.
    unfold positions_of, range. cbn [Z.to_nat].
    constructor; [| constructor].
    cbn. rewrite inject_Z_mult. change (inject_Z 0) with 0. field. }
  intros H4 H2500. apply (positions_eq_trans _ _ _ Hys). rewrite H4, H2500.
  repeat constructor.
Qed.

(** ** C2 *)

(** C2, as the program computes it.  The claim fails in binary64.  With
    the [int] spacing [2^53 + 1] and two girders the positions are
    [-2^52] and [2^52]: the step is [2^53], not the spacing.  With the
    [float] spacing 3.3 and four girders the last step is not the spacing
    and the two middle positions do not sum to zero. *)
Lemma compute_layout_float_inexact :
  (1 <= 2)%Z /\ (0 < 9007199254740993)%Z /\
  (exists y0 y1 : Q,
     compute_layout_float (Int 9007199254740993) 2 (Int 500) (Int 900) =
       Ok (Int 9007199254741993, [finite y0; finite y1], Int 900) /\
     y0 == - (4503599627370496 # 1) /\
     y1 == 4503599627370496 /\
     ~ y1 - y0 == inject_Z 9007199254740993) /\
  (1 <= 4)%Z /\ 0 < round64 (33 # 10) /\
  (exists (w : number) (y0 y1 y2 y3 : Q),
     compute_layout_float (finite (round64 (33 # 10))) 4 (Int 500) (Int 900) =
       Ok (w, [finite y0; finite y1; finite y2; finite y3], Int 900) /\
     ~ y3 - y2 == round64 (33 # 10) /\
     ~ y1 + y2 == 0).
Proof.
  split; [lia |]. split; [lia |].
  split.
  { do 2 eexists.
    split; [vm_compute; reflexivity |].
    split; [vm_compute; reflexivity |].
    split; [vm_compute; reflexivity |].
    vm_compute. discriminate. }
  split; [lia |]. split; [vm_compute; reflexivity |].
  do 5 eexists.
  split; [vm_compute; reflexivity |].
  split; vm_compute; discriminate.
Qed.

(** C2, amended.  With an [int] girder count of at least one and an [int]
    spacing that is positive, as long as [spacing * (n_girders - 1)] is
    below [2^53], [compute_layout] in binary64 returns [n_girders]
    Y-positions, the first of which is [-spacing * (n_girders - 1) / 2];
    each next one is larger by exactly [spacing]; the i-th and the i-th
    from the end sum to zero; a single girder sits at 0; and 4 girders
    spaced 2500 sit at -3750, -1250, 1250, 3750. *)
Theorem compute_layout_float_girder_positions (s n o d : Z) :
  (1 <= n)%Z ->
  (0 < s)%Z ->
  (s * (n - 1) < 2 ^ 53)%Z ->
  exists ys : list Q,
    compute_layout_float (Int s) n (Int o) (Int d) =
      Ok (Int (s * (n - 1) + 2 * o), map finite ys, Int d) /\
    Z.of_nat (List.length ys) = n /\
    nth 0 ys 0 == - inject_Z s * (inject_Z n - 1) / 2 /\
    (forall i : nat, (S i < List.length ys)%nat ->
       nth (S i) ys 0 - nth i ys 0 == inject_Z s /\
       nth i ys 0 < nth (S i) ys 0) /\
    (forall i : nat, (i < List.length ys)%nat ->
       nth i ys 0 + nth (List.length ys - 1 - i) ys 0 == 0) /\
    (n = 1%Z -> positions_eq ys [0]) /\
    (n = 4%Z -> s = 2500%Z ->
       positions_eq ys [-3750 # 1; -1250 # 1; 1250 # 1; 3750 # 1]).
Proof.
  intros Hn Hs Hb.
  destruct (compute_layout_float_exact s n o d) as (ys & Hrun & Hys).
  { rewrite Z.abs_eq by nia. exact Hb. }
  exists ys. split; [exact Hrun |].
  exact (positions_properties s n ys Hn Hs Hys).
Qed.

(** The test configuration "4-Girder Bridge": the theorem yields the
    positions the specification lists for it. *)
Lemma compute_layout_float_girder_positions_witness :
  (1 <= 4)%Z /\ (0 < 2500)%Z /\ (2500 * (4 - 1) < 2 ^ 53)%Z /\
  exists ys : list Q,
    compute_layout_float (Int 2500) 4 (Int 500) (Int 1000) =
      Ok (Int 8500, map finite ys, Int 1000) /\
    Z.of_nat (List.length ys) = 4%Z /\
    positions_eq ys [-3750 # 1; -1250 # 1; 1250 # 1; 3750 # 1].
Proof.
  split; [lia |]. split; [lia |]. split; [lia |].
  destruct (compute_layout_float_girder_positions 2500 4 500 1000)
    as (ys & H1 & H2 & _ & _ & _ & _ & H4); try lia.
  exists ys.
  split; [exact H1 |]. split; [exact H2 |].
  apply H4; reflexivity.
Defined.

(** ** C4 *)


(** ** C6 *)

(** C6. The layout depends on the parameters alone: two models with the
    same parameters, whatever else they hold, get the same deck width,
    Y-positions and deck level; a second call on the result changes
    nothing; and the call leaves the parameters and the components of the
    model as they were. *)
Theorem compute_layout_deterministic (a b : BridgeModel) :
  same_parameters a b ->
  exists a' b',
    compute_layout a = Ok a' /\
    compute_layout b = Ok b' /\
    deck_width a' = deck_width b' /\
    girder_positions_y a' = girder_positions_y b' /\
    deck_z_level a' = deck_z_level b' /\
    compute_layout a' = Ok a' /\
    same_parameters a a' /\
    same_components a a'.
Proof.
  intros (_ & Hn & Hs & Ho & _ & Hd & _).
  do 2 eexists.
  split; [apply compute_layout_eq |].
  split; [apply compute_layout_eq |].
  cbn [deck_width girder_positions_y deck_z_level
       set_deck_z_level set_girder_positions_y set_deck_width].
  split; [now rewrite Hn, Hs, Ho |].
  split; [now rewrite Hn, Hs |].
  split; [now rewrite Hd |].
  split; [reflexivity |].
  split; repeat split.
Qed.

(** A freshly constructed model and one with the same parameters that
    already holds a girder and a stale deck width. *)
Lemma compute_layout_deterministic_witness :
  same_parameters
    (init 12000 3 3000 500 10 900 300 16 10 200)
    (set_deck_width
       (set_girders (init 12000 3 3000 500 10 900 300 16 10 200)
          [Girder.init 1 1 1 1 1])
       42) /\
  exists a' b',
    compute_layout (init 12000 3 3000 500 10 900 300 16 10 200) = Ok a' /\
    compute_layout
      (set_deck_width
         (set_girders (init 12000 3 3000 500 10 900 300 16 10 200)
            [Girder.init 1 1 1 1 1])
         42) = Ok b' /\
    deck_width a' = deck_width b' /\
    girder_positions_y a' = girder_positions_y b' /\
    deck_z_level a' = deck_z_level b' /\
    compute_layout a' = Ok a' /\
    same_parameters (init 12000 3 3000 500 10 900 300 16 10 200) a' /\
    same_components (init 12000 3 3000 500 10 900 300 16 10 200) a'.
Proof.
  assert (H : same_parameters
                (init 12000 3 3000 500 10 900 300 16 10 200)
                (set_deck_width
                   (set_girders (init 12000 3 3000 500 10 900 300 16 10 200)
                      [Girder.init 1 1 1 1 1])
                   42)) by (repeat split).
  split; [exact H |].
  exact (compute_layout_deterministic _ _ H).
Defined.

(** ** C8 *)



(** ** Creation of the components *)

Lemma girder_loop (ys : list Q) (self : BridgeModel) :
  fold_left
    (fun self (y : Q) =>
       let g := Girder.init (girder_section_d self) (girder_section_bf self)
                  (girder_section_tf self) (girder_section_tw self)
                  (span_length self) in
       let g := Girder.create_geometry g in
       set_girders self (girders self ++ [g]))
    ys self =
  set_girders self
    (girders self ++ repeat (new_girder self) (List.length ys)).
Proof.
  revert self. induction ys as [| y ys IH]; intros self.
  - destruct self. cbn. now rewrite app_nil_r.
  - cbn [fold_left]. rewrite IH. destruct self. cbn.
    now rewrite <- app_assoc.
Qed.

(** The effect of [create_components], once the layout is there. *)
Lemma create_components_eq (self : BridgeModel) (ys : list Q) (w : Z) :
  girder_positions_y self = Some ys ->
  deck_width self = Some w ->
  create_components self =
  Ok (set_parapets
        (set_deck
           (set_girders self
              (girders self ++ repeat (new_girder self) (List.length ys)))
           (new_deck self w))
        (parapets self ++ [new_parapet self; new_parapet self])).
Proof.
  intros Hys Hw. unfold create_components.
  rewrite Hys. cbn [getattr bind]. rewrite girder_loop.
  change (range 2) with [0%Z; 1%Z].
  destruct self. cbn in Hw |- *. rewrite Hw. cbn.
  now rewrite <- app_assoc.
Qed.

(** ** C9 *)

(** C9. The parapet dimensions are the module constants 300 and 1000, and
    the constructor has no parameter for them: whatever its ten arguments,
    [create_components] after [compute_layout] leaves exactly two parapets,
    each 300 wide and 1000 high, built as a box of the span length by 300
    by 1000. *)
Theorem create_components_parapet_dimensions :
  PARAPET_WIDTH = 300%Z /\ PARAPET_HEIGHT = 1000%Z /\
  forall L n s o a d bf tf tw t : Z,
  exists m1 m2,
    compute_layout (init L n s o a d bf tf tw t) = Ok m1 /\
    create_components m1 = Ok m2 /\
    List.length (parapets m2) = 2%nat /\
    Forall (fun p =>
              Parapet.width p = 300%Z /\ Parapet.height p = 1000%Z /\
              Parapet.length p = L /\
              get_shape p =
              Some (BRepPrimAPI_MakeBox (inject_Z L) 300 1000))
           (parapets m2).
Proof.
  split; [reflexivity |]. split; [reflexivity |].
  intros. do 2 eexists.
  split; [apply compute_layout_eq |].
  split; [eapply create_components_eq; reflexivity |].
  split; [reflexivity |].
  cbn. repeat constructor.
Qed.

(** ** C10 *)

Lemma calls_create_components (k : nat) (self : BridgeModel)
    (ys : list Q) (w : Z) :
  girder_positions_y self = Some ys ->
  deck_width self = Some w ->
  exists self',
    calls k create_components self = Ok self' /\
    girder_positions_y self' = Some ys /\
    deck_width self' = Some w /\
    girders self' =
      girders self ++ repeat (new_girder self) (k * List.length ys) /\
    parapets self' = parapets self ++ repeat (new_parapet self) (2 * k) /\
    same_parameters self self'.
Proof.
  revert self. induction k as [| k IH]; intros self Hys Hw.
  - exists self. cbn. rewrite !app_nil_r. repeat split; assumption.
  - cbn [calls]. rewrite (create_components_eq self ys w Hys Hw).
    cbn [bind].
    match goal with |- context [calls k create_components ?m] =>
      destruct (IH m) as (self' & Hc & Hys' & Hw' & Hg & Hp & Hsame);
        [exact Hys | exact Hw |]
    end.
    exists self'. split; [exact Hc |].
    split; [exact Hys' |]. split; [exact Hw' |].
    cbn [girders parapets set_parapets set_deck set_girders] in Hg, Hp.
    split; [| split].
    + rewrite Hg, <- app_assoc. f_equal.
      change (S k * List.length ys)%nat
        with (List.length ys + k * List.length ys)%nat.
      now rewrite repeat_app.
    + rewrite Hp, <- app_assoc. f_equal.
      replace (2 * S k)%nat with (2 + 2 * k)%nat by lia.
      now rewrite repeat_app.
    + destruct Hsame as (H1 & H2 & H3 & H4 & H5 & H6 & H7 & H8 & H9 & H10).
      repeat split; assumption.
Qed.

(** C10, as stated.  The claim fails for a negative girder count, which
    the constructor accepts: with [n_girders = -2] the layout has no
    position, three calls of [create_components] create no girder, and 0
    is not [3 * (-2)]. *)
Lemma create_components_negative_count :
  exists m1 mk,
    compute_layout (init 12000 (-2) 3000 500 10 900 300 16 10 200) = Ok m1 /\
    calls 3 create_components m1 = Ok mk /\
    List.length (girders mk) = 0%nat /\
    List.length (parapets mk) = 6%nat /\
    Z.of_nat (List.length (girders mk)) <> (3 * n_girders mk)%Z.
Proof.
  do 2 eexists.
  split; [vm_compute; reflexivity |].
  split; [vm_compute; reflexivity |].
  split; [reflexivity |]. split; [reflexivity |].
  vm_compute. discriminate.
Qed.

(** C10, amended.  [create_components] appends.  On any model, once the
    layout is computed, [k] calls succeed, and one more call keeps every
    girder and parapet already there, adds one girder per Y-position, that
    is [max(n_girders, 0)] girders, and two parapets, and so yields a
    different model.  After [k] calls the model holds
    [k * max(n_girders, 0)] girders and [2 * k] parapets more than before
    the first one; on a new model those are all. *)
Theorem create_components_appends_per_position :
  (forall (self : BridgeModel) (k : nat),
     exists m1 mk mk' ys,
       compute_layout self = Ok m1 /\
       girder_positions_y m1 = Some ys /\
       Z.of_nat (List.length ys) = Z.max (n_girders self) 0 /\
       calls k create_components m1 = Ok mk /\
       create_components mk = Ok mk' /\
       (exists new,
          girders mk' = girders mk ++ new /\
          List.length new = List.length ys) /\
       (exists new,
          parapets mk' = parapets mk ++ new /\ List.length new = 2%nat) /\
       mk' <> mk /\
       Z.of_nat (List.length (girders mk)) =
         (Z.of_nat (List.length (girders self))
          + Z.of_nat k * Z.max (n_girders self) 0)%Z /\
       List.length (parapets mk) =
         (List.length (parapets self) + 2 * k)%nat) /\
  (forall (L n s o a d bf tf tw t : Z) (k : nat),
     exists m1 mk,
       compute_layout (init L n s o a d bf tf tw t) = Ok m1 /\
       calls k create_components m1 = Ok mk /\
       Z.of_nat (List.length (girders mk)) = (Z.of_nat k * Z.max n 0)%Z /\
       List.length (parapets mk) = (2 * k)%nat).
Proof.
  assert (Hgen : forall (self : BridgeModel) (k : nat),
     exists mk,
       calls k create_components
         (set_deck_z_level
            (set_girder_positions_y
               (set_deck_width self
                  (spacing self * (n_girders self - 1) + 2 * overhang self)%Z)
               (positions_of (spacing self) (n_girders self)))
            (girder_section_d self)) = Ok mk /\
       girder_positions_y mk =
         Some (positions_of (spacing self) (n_girders self)) /\
       deck_width mk =
         Some (spacing self * (n_girders self - 1) + 2 * overhang self)%Z /\
       Z.of_nat (List.length (girders mk)) =
         (Z.of_nat (List.length (girders self))
          + Z.of_nat k * Z.max (n_girders self) 0)%Z /\
       List.length (parapets mk) =
         (List.length (parapets self) + 2 * k)%nat).
  { intros self k.
    match goal with |- exists mk, calls k _ ?m = _ /\ _ =>
      destruct (calls_create_components k m
                  (positions_of (spacing self) (n_girders self))
                  (spacing self * (n_girders self - 1) + 2 * overhang self)%Z
                  eq_refl eq_refl)
        as (mk & Hk & Hys & Hw & Hg & Hp & _)
    end.
    exists mk. split; [exact Hk |]. split; [exact Hys |]. split; [exact Hw |].
    rewrite Hg, Hp, !length_app, !repeat_length, positions_of_length.
    cbn [girders parapets set_deck_z_level set_girder_positions_y
         set_deck_width].
    split; [nia | reflexivity]. }
  split.
  - intros self k.
    destruct (Hgen self k) as (mk & Hk & Hys & Hw & Hgl & Hpl).
    eexists. exists mk. eexists.
    exists (positions_of (spacing self) (n_girders self)).
    split; [apply compute_layout_eq |].
    split; [reflexivity |].
    split; [rewrite positions_of_length; lia |].
    split; [exact Hk |].
    split; [exact (create_components_eq mk _ _ Hys Hw) |].
    cbn [girders parapets set_parapets set_deck set_girders].
    split; [eexists; split; [reflexivity | apply repeat_length] |].
    split; [eexists; split; reflexivity |].
    split.
    { intros Heq. apply (f_equal (fun m => List.length (parapets m))) in Heq.
      cbn [parapets set_parapets] in Heq. rewrite length_app in Heq.
      cbn [List.length] in Heq. lia. }
    split; [exact Hgl | exact Hpl].
  - intros L n s o a d bf tf tw t k.
    destruct (Hgen (init L n s o a d bf tf tw t) k)
      as (mk & Hk & _ & _ & Hgl & Hpl).
    eexists. exists mk.
    split; [apply compute_layout_eq |].
    split; [exact Hk |].
    cbn [girders parapets init List.length n_girders] in Hgl, Hpl.
    split; [lia | exact Hpl].
Qed.

(** ** Placement of the components *)

Lemma translate_eq {C : Type} `{BridgeComponent C}
    (c : C) (s : Shape) (dx dy dz : Q) :
  get_shape c = Some s ->
  translate c dx dy dz = Ok (set_shape c (translation s dx dy dz)).
Proof.
  intros Hs. unfold translate. now rewrite Hs.
Qed.

(** As many girders as positions, all with the same shape: the loop moves
    each one to its own position. *)
Lemma translate_girders_repeat (g : Girder.t) (sg : Shape) (ys : list Q) :
  get_shape g = Some sg ->
  translate_girders (repeat g (List.length ys)) ys =
  Ok (map (fun y => set_shape g (translation sg 0 y 0)) ys).
Proof.
  intros Hg. induction ys as [| y ys IH].
  - reflexivity.
  - cbn [List.length repeat translate_girders map].
    rewrite (translate_eq g sg 0 y 0 Hg). cbn [bind].
    rewrite IH. reflexivity.
Qed.

Lemma position_components_eq (self : BridgeModel)
    (ys : list Q) (gs : list Girder.t) (k : Deck.t) (sk : Shape)
    (w z : Z) (p0 p1 : Parapet.t) (s0 s1 : Shape) (ps : list Parapet.t) :
  girder_positions_y self = Some ys ->
  translate_girders (girders self) ys = Ok gs ->
  deck self = Some k ->
  get_shape k = Some sk ->
  deck_width self = Some w ->
  deck_z_level self = Some z ->
  parapets self = p0 :: p1 :: ps ->
  get_shape p0 = Some s0 ->
  get_shape p1 = Some s1 ->
  position_components self =
  Ok (set_parapets
        (set_deck (set_girders self gs)
           (set_shape k
              (translation sk 0 (inject_Z (- w) / 2) (inject_Z z))))
        (set_shape p0
           (translation s0 0
              (- (inject_Z w / 2) - inject_Z PARAPET_WIDTH / 2)
              (inject_Z (z + deck_thickness self)))
         :: set_shape p1
              (translation s1 0
                 (inject_Z w / 2 - inject_Z PARAPET_WIDTH / 2)
                 (inject_Z (z + deck_thickness self)))
         :: ps)).
Proof.
  intros Hys Hgs Hk Hsk Hw Hz Hps Hs0 Hs1.
  unfold position_components.
  rewrite Hys. cbn [getattr bind]. rewrite Hgs. cbn [bind].
  cbn [deck deck_width deck_z_level set_girders].
  rewrite Hk, Hw, Hz. cbn [getattr bind].
  rewrite (translate_eq k sk _ _ _ Hsk). cbn [bind].
  cbn [parapets set_deck set_girders]. rewrite Hps.
  cbn [getitem nth_error bind].
  rewrite (translate_eq p0 s0 _ _ _ Hs0). cbn [bind].
  cbn [parapets set_parapets setitem getitem nth_error bind].
  rewrite (translate_eq p1 s1 _ _ _ Hs1). cbn [bind].
  reflexivity.
Qed.

Lemma get_shapes_map {C : Type} `{BridgeComponent C}
    (h : Q -> C) (f : Q -> Shape) (ys : list Q) :
  (forall y, get_shape (h y) = Some (f y)) ->
  get_shapes (map h ys) = Ok (map f ys).
Proof.
  intros Hh. induction ys as [| y ys IH].
  - reflexivity.
  - cbn [map get_shapes]. rewrite Hh, IH. reflexivity.
Qed.

(** ** The flow on a new model

    The four steps of the assembly on a freshly constructed model, with the
    model after creation, after placement and after assembly written out. *)
Lemma flow_from_init (L n s o a d bf tf tw t : Z) :
  let ys := positions_of s n in
  let w := (s * (n - 1) + 2 * o)%Z in
  let sg := create_i_section d bf tf tw L in
  let g := Girder.mk d bf tf tw L (Some sg) in
  let sk := create_rectangular_prism w t L in
  let k := Deck.mk w t L (Some sk) in
  let sp := create_rectangular_prism PARAPET_WIDTH PARAPET_HEIGHT L in
  let p := Parapet.mk PARAPET_WIDTH PARAPET_HEIGHT L (Some sp) in
  let tg := fun y : Q => translation sg 0 y 0 in
  let tk := translation sk 0 (inject_Z (- w) / 2) (inject_Z d) in
  let tp0 :=
    translation sp 0 (- (inject_Z w / 2) - inject_Z PARAPET_WIDTH / 2)
      (inject_Z (d + t)) in
  let tp1 :=
    translation sp 0 (inject_Z w / 2 - inject_Z PARAPET_WIDTH / 2)
      (inject_Z (d + t)) in
  exists m1 m2 m3 m4,
    compute_layout (init L n s o a d bf tf tw t) = Ok m1 /\
    create_components m1 = Ok m2 /\
    position_components m2 = Ok m3 /\
    assemble m3 = Ok m4 /\
    m2 = mkBridgeModel L n s o a d bf tf tw t
           (repeat g (List.length ys)) [p; p] (Some k) None
           (Some w) (Some ys) (Some d) /\
    m3 = mkBridgeModel L n s o a d bf tf tw t
           (map (fun y => set_shape g (tg y)) ys)
           [set_shape p tp0; set_shape p tp1] (Some (set_shape k tk)) None
           (Some w) (Some ys) (Some d) /\
    m4 = mkBridgeModel L n s o a d bf tf tw t
           (map (fun y => set_shape g (tg y)) ys)
           [set_shape p tp0; set_shape p tp1] (Some (set_shape k tk))
           (Some (TopoDS_Compound (map tg ys ++ [tk] ++ [tp0; tp1])))
           (Some w) (Some ys) (Some d).
Proof.
  intros ys w sg g sk k sp p tg tk tp0 tp1.
  set (m2 := mkBridgeModel L n s o a d bf tf tw t
               (repeat g (List.length ys)) [p; p] (Some k) None
               (Some w) (Some ys) (Some d)).
  set (m3 := mkBridgeModel L n s o a d bf tf tw t
               (map (fun y => set_shape g (tg y)) ys)
               [set_shape p tp0; set_shape p tp1] (Some (set_shape k tk))
               None (Some w) (Some ys) (Some d)).
  eexists. exists m2, m3. eexists.
  split; [apply compute_layout_eq |].
  split.
  { erewrite create_components_eq by reflexivity. reflexivity. }
  split.
  { rewrite (position_components_eq m2 ys
               (map (fun y => set_shape g (tg y)) ys) k sk w d p p sp sp []);
      try reflexivity.
    apply (translate_girders_repeat g sg ys). reflexivity. }
  split.
  { unfold assemble.
    cbn [girders parapets deck m3].
    rewrite (get_shapes_map (fun y => set_shape g (tg y)) tg ys)
      by reflexivity.
    reflexivity. }
  repeat split.
Qed.

(** ** C3 *)

Lemma translated_by_set_shape {C : Type} `{BridgeComponent C}
    (c : C) (s : Shape) (dx dy dz dx' dy' dz' : Q) :
  get_shape c = Some s ->
  dx == dx' -> dy == dy' -> dz == dz' ->
  translated_by c (set_shape c (translation s dx dy dz)) dx' dy' dz'.
Proof.
  intros Hs Hx Hy Hz.
  exists s, (mk_gp_Vec dx dy dz).
  repeat split; assumption.
Qed.

Lemma Forall2_combine_repeat_map {A B : Type} (R : A * A -> B -> Prop)
    (g : A) (h : B -> A) (ys : list B) :
  (forall y, R (g, h y) y) ->
  Forall2 R (combine (repeat g (List.length ys)) (map h ys)) ys.
Proof.
  intros HR. induction ys as [| y ys IH]; cbn.
  - constructor.
  - constructor; [apply HR | exact IH].
Qed.

(** C3. After [compute_layout] and [create_components] on a new model,
    [position_components] returns, and it has replaced: each girder by the
    same girder translated by [(0, Y_i, 0)], [Y_i] its computed position;
    the deck by the deck translated by [(0, -deck_width/2, deck_z_level)];
    parapet 0 by itself translated by
    [(0, -deck_width/2 - PARAPET_WIDTH/2, deck_z_level + deck_thickness)];
    parapet 1 by itself translated by
    [(0, deck_width/2 - PARAPET_WIDTH/2, deck_z_level + deck_thickness)]. *)
Theorem position_components_translations (L n s o a d bf tf tw t : Z) :
  exists m1 m2 m3 ys w z,
    compute_layout (init L n s o a d bf tf tw t) = Ok m1 /\
    create_components m1 = Ok m2 /\
    position_components m2 = Ok m3 /\
    girder_positions_y m2 = Some ys /\
    deck_width m2 = Some w /\
    deck_z_level m2 = Some z /\
    List.length (girders m2) = List.length ys /\
    List.length (girders m3) = List.length ys /\
    Forall2 (fun gg' y => translated_by (fst gg') (snd gg') 0 y 0)
      (combine (girders m2) (girders m3)) ys /\
    (exists k k',
       deck m2 = Some k /\ deck m3 = Some k' /\
       translated_by k k' 0 (- inject_Z w / 2) (inject_Z z)) /\
    (exists p0 p1 p0' p1',
       parapets m2 = [p0; p1] /\ parapets m3 = [p0'; p1'] /\
       translated_by p0 p0' 0
         (- inject_Z w / 2 - inject_Z PARAPET_WIDTH / 2)
         (inject_Z z + inject_Z (deck_thickness m2)) /\
       translated_by p1 p1' 0
         (inject_Z w / 2 - inject_Z PARAPET_WIDTH / 2)
         (inject_Z z + inject_Z (deck_thickness m2))).
Proof.
  destruct (flow_from_init L n s o a d bf tf tw t)
    as (m1 & m2 & m3 & m4 & H1 & H2 & H3 & _ & E2 & E3 & _).
  exists m1, m2, m3, (positions_of s n), (s * (n - 1) + 2 * o)%Z, d.
  split; [exact H1 |]. split; [exact H2 |]. split; [exact H3 |].
  rewrite E2, E3.
  cbn [girder_positions_y deck_width deck_z_level girders deck parapets
       deck_thickness].
  split; [reflexivity |]. split; [reflexivity |]. split; [reflexivity |].
  split; [apply repeat_length |].
  split; [apply length_map |].
  split.
  { apply (Forall2_combine_repeat_map
             (fun gg' y => translated_by (fst gg') (snd gg') 0 y 0)).
    intros y. cbn [fst snd].
    apply translated_by_set_shape; reflexivity. }
  split.
  { do 2 eexists. split; [reflexivity |]. split; [reflexivity |].
    apply translated_by_set_shape; reflexivity. }
  do 4 eexists. split; [reflexivity |]. split; [reflexivity |].
  split; apply translated_by_set_shape; try reflexivity.
  - field.
  - now rewrite inject_Z_plus.
  - now rewrite inject_Z_plus.
Qed.

(** ** C5 *)

(** C5. With the constants of the module, [main] returns; creation yields
    3 girders, a deck and 2 parapets; the deck is 7000 wide; the assembly
    is the compound of the shapes of the 3 girders, the deck and the 2
    parapets, in that order, 6 in all; and the parapets are boxes of
    12000 by 300 by 1000 translated to Y = -3650 and Y = 3350, both to
    Z = 1100. *)
Theorem main_default_configuration :
  exists m evs m1 m2 g0 g1 g2 k p0 p1 s0 s1 s2 sk sp0 sp1 v0 v1,
    main = Ok (m, evs) /\
    compute_layout
      (init SPAN_LENGTH_L N_GIRDERS GIRDER_CENTROID_SPACING
         GIRDER_OFFSET_FROM_EDGE SKEW_ANGLE
         GIRDER_SECTION_D GIRDER_SECTION_BF
         GIRDER_SECTION_TF GIRDER_SECTION_TW
         DECK_THICKNESS) = Ok m1 /\
    create_components m1 = Ok m2 /\
    List.length (girders m2) = 3%nat /\
    deck m2 <> None /\
    List.length (parapets m2) = 2%nat /\
    deck_width m = Some 7000%Z /\
    girders m = [g0; g1; g2] /\
    deck m = Some k /\
    parapets m = [p0; p1] /\
    get_shape g0 = Some s0 /\ get_shape g1 = Some s1 /\
    get_shape g2 = Some s2 /\ get_shape k = Some sk /\
    get_shape p0 = Some sp0 /\ get_shape p1 = Some sp1 /\
    assembly_shape m = Some (TopoDS_Compound [s0; s1; s2; sk; sp0; sp1]) /\
    sp0 = BRepBuilderAPI_Transform
            (BRepPrimAPI_MakeBox 12000 300 1000) (SetTranslation v0) /\
    sp1 = BRepBuilderAPI_Transform
            (BRepPrimAPI_MakeBox 12000 300 1000) (SetTranslation v1) /\
    vx v0 == 0 /\ vy v0 == -3650 # 1 /\ vz v0 == 1100 /\
    vx v1 == 0 /\ vy v1 == 3350 /\ vz v1 == 1100.
Proof.
  do 18 eexists.
  split; [vm_compute; reflexivity |].
  split; [vm_compute; reflexivity |].
  split; [vm_compute; reflexivity |].
  split; [reflexivity |].
  split; [discriminate |].
  repeat (split; [reflexivity |]).
  reflexivity.
Qed.

(** ** C7 *)

(** [component_rotated] does detect a call of [rotate]. *)
Lemma rotate_is_detected {C : Type} `{BridgeComponent C}
    (c c' : C) (axis_point axis_direction : gp_Vec) (angle_deg : Q) :
  (forall (x : C) (s : Shape), get_shape (set_shape x s) = Some s) ->
  rotate c axis_point axis_direction angle_deg = Ok c' ->
  component_rotated c' = true.
Proof.
  intros Hlaw Hrot. unfold rotate in Hrot.
  destruct (get_shape c) as [s |]; [| discriminate].
  injection Hrot as <-.
  unfold component_rotated. rewrite Hlaw. reflexivity.
Qed.

Lemma existsb_map_false {A B : Type} (P : B -> bool) (h : A -> B)
    (l : list A) :
  (forall x, P (h x) = false) -> existsb P (map h l) = false.
Proof.
  intros HP. induction l as [| x l IH]; cbn.
  - reflexivity.
  - now rewrite HP, IH.
Qed.

Lemma display_eq (self : BridgeModel) (k : Deck.t) :
  deck self = Some k ->
  display self =
  Ok ([InitDisplay; SetBackgroundColor 1 1 1; DisplayTriedron]
        ++ map (fun g => DisplayShape (get_shape g) (7 # 10) (7 # 10) (3 # 4))
             (girders self)
        ++ [DisplayShape (get_shape k) (4 # 5) (4 # 5) (4 # 5)]
        ++ map (fun p =>
                  DisplayShape (get_shape p) (9 # 10) (9 # 10) (17 # 20))
             (parapets self)
        ++ [FitAll; StartDisplay]).
Proof.
  intros Hk. unfold display. rewrite Hk. reflexivity.
Qed.

Lemma export_eq (self : BridgeModel) :
  export self =
  Ok [PrintLine "Exporting STEP file: bridge_model.step";
      WriteStepFile (assembly_shape self) "bridge_model.step";
      PrintLine "Exporting BREP file: bridge_model.brep";
      BreptoolsWrite (assembly_shape self) "bridge_model.brep"].
Proof.
  reflexivity.
Qed.

Lemma run_eq (m0 m1 m2 m3 m4 : BridgeModel) (shown written : list Event) :
  compute_layout m0 = Ok m1 ->
  create_components m1 = Ok m2 ->
  position_components m2 = Ok m3 ->
  assemble m3 = Ok m4 ->
  display m4 = Ok shown ->
  export m4 = Ok written ->
  run m0 = Ok (m4, shown ++ written).
Proof.
  intros H1 H2 H3 H4 H5 H6. unfold run.
  rewrite H1. cbn [bind]. rewrite H2. cbn [bind].
  rewrite H3. cbn [bind]. rewrite H4. cbn [bind].
  rewrite H5. cbn [bind]. rewrite H6. reflexivity.
Qed.

(** C7. The flow of [main], on a new model built from any ten arguments,
    returns; the skew angle is still stored in the model; no girder, deck,
    parapet or assembly of the model, and no shape handed to the viewer or
    to an exporter, went through [rotate]; and with another skew angle the
    flow yields the same components, the same assembly and the same
    events. *)
Theorem run_never_rotates (L n s o a d bf tf tw t : Z) :
  exists m evs,
    run (init L n s o a d bf tf tw t) = Ok (m, evs) /\
    skew_angle m = a /\
    model_rotated m = false /\
    existsb event_rotated evs = false /\
    forall a' : Z,
    exists m',
      run (init L n s o a' d bf tf tw t) = Ok (m', evs) /\
      skew_angle m' = a' /\
      same_components m m'.
Proof.
  destruct (flow_from_init L n s o a d bf tf tw t)
    as (m1 & m2 & m3 & m4 & H1 & H2 & H3 & H4 & _ & _ & E4).
  pose proof (export_eq m4) as Hexp.
  eexists m4, _.
  split.
  { eapply run_eq; try eassumption.
    eapply display_eq. rewrite E4. reflexivity. }
  split; [rewrite E4; reflexivity |].
  split.
  { rewrite E4. unfold model_rotated.
    cbn [girders parapets deck assembly_shape].
    rewrite existsb_map_false by reflexivity.
    cbn [has_rotation]. rewrite existsb_app.
    rewrite existsb_map_false by reflexivity.
    reflexivity. }
  split.
  { rewrite !existsb_app, E4.
    cbn [girders parapets deck assembly_shape].
    rewrite map_map.
    rewrite (existsb_map_false event_rotated _ (positions_of s n))
      by reflexivity.
    cbn [map existsb event_rotated get_shape set_shape orb
         Deck.component Deck.shape Parapet.component Parapet.shape
         has_rotation].
    rewrite existsb_app.
    rewrite (existsb_map_false has_rotation _ (positions_of s n))
      by reflexivity.
    reflexivity. }
  intros a'.
  destruct (flow_from_init L n s o a' d bf tf tw t)
    as (m1' & m2' & m3' & m4' & H1' & H2' & H3' & H4' & _ & _ & E4').
  exists m4'.
  split.
  { rewrite (run_eq _ _ _ _ _ _ _ H1' H2' H3' H4'
               (display_eq m4' _ ltac:(rewrite E4'; reflexivity))
               (export_eq m4')).
    rewrite E4, E4'. reflexivity. }
  split; [rewrite E4'; reflexivity |].
  rewrite E4, E4'. repeat split.
Qed.

(** * Further properties *)

(** ** Inversion of the error monad *)

Lemma bind_Ok {A B : Type} (r : result A) (k : A -> result B) (b : B) :
  bind r k = Ok b -> exists a, r = Ok a /\ k a = Ok b.
Proof.
  destruct r as [a | e]; cbn; [| discriminate].
  intros H. exists a. split; [reflexivity | exact H].
Qed.

Lemma getattr_Ok {A : Type} (o : option A) (a : A) :
  getattr o = Ok a -> o = Some a.
Proof.
  destruct o; cbn; [| discriminate]. now intros [= ->].
Qed.

Lemma translate_Ok {C : Type} `{BridgeComponent C}
    (c c' : C) (dx dy dz : Q) :
  translate c dx dy dz = Ok c' ->
  exists s, get_shape c = Some s /\
            c' = set_shape c (translation s dx dy dz).
Proof.
  unfold translate. destruct (get_shape c) as [s |]; [| discriminate].
  intros [= <-]. exists s. split; reflexivity.
Qed.

Lemma translate_translated_by {C : Type} `{BridgeComponent C}
    (c c' : C) (dx dy dz : Q) :
  translate c dx dy dz = Ok c' -> translated_by c c' dx dy dz.
Proof.
  intros Ht. destruct (translate_Ok c c' dx dy dz Ht) as (s & Hs & ->).
  apply translated_by_set_shape; [exact Hs | reflexivity ..].
Qed.

(** ** The loop over [zip(girders, positions)] *)

Lemma translate_girders_length (gs : list Girder.t) (ys : list Q)
    (gs' : list Girder.t) :
  translate_girders gs ys = Ok gs' -> List.length gs' = List.length gs.
Proof.
  revert ys gs'. induction gs as [| g gs IH]; intros ys gs' H.
  - destruct ys; cbn in H; injection H as <-; reflexivity.
  - destruct ys as [| y ys]; cbn [translate_girders] in H.
    + injection H as <-. reflexivity.
    + apply bind_Ok in H. destruct H as (g' & _ & H).
      apply bind_Ok in H. destruct H as (rest & Hrest & H).
      injection H as <-. cbn [List.length]. f_equal. now apply (IH ys).
Qed.

Lemma translate_girders_moved (gs : list Girder.t) (ys : list Q)
    (gs' : list Girder.t) (i : nat) (g : Girder.t) (y : Q) :
  translate_girders gs ys = Ok gs' ->
  nth_error gs i = Some g ->
  nth_error ys i = Some y ->
  exists g', nth_error gs' i = Some g' /\ translated_by g g' 0 y 0.
Proof.
  revert ys gs' i. induction gs as [| g0 gs IH]; intros ys gs' i H Hg Hy.
  - destruct i; discriminate.
  - destruct ys as [| y0 ys]; [destruct i; discriminate |].
    cbn [translate_girders] in H.
    apply bind_Ok in H. destruct H as (g0' & Hg0 & H).
    apply bind_Ok in H. destruct H as (rest & Hrest & H).
    injection H as <-.
    destruct i as [| i]; cbn [nth_error] in *.
    + injection Hg as <-. injection Hy as <-.
      exists g0'. split; [reflexivity |].
      now apply translate_translated_by.
    + now apply (IH ys).
Qed.

Lemma translate_girders_kept (gs : list Girder.t) (ys : list Q)
    (gs' : list Girder.t) (i : nat) :
  translate_girders gs ys = Ok gs' ->
  (List.length ys <= i)%nat ->
  nth_error gs' i = nth_error gs i.
Proof.
  revert ys gs' i. induction gs as [| g0 gs IH]; intros ys gs' i H Hi.
  - destruct ys; cbn in H; injection H as <-; reflexivity.
  - destruct ys as [| y0 ys]; cbn [translate_girders] in H.
    + injection H as <-. reflexivity.
    + apply bind_Ok in H. destruct H as (g0' & Hg0 & H).
      apply bind_Ok in H. destruct H as (rest & Hrest & H).
      injection H as <-.
      destruct i as [| i]; cbn [List.length] in Hi; [lia |].
      cbn [nth_error]. apply (IH ys); [exact Hrest | lia].
Qed.

(** A girder without geometry among those the loop reaches makes it
    raise. *)
Lemma translate_girders_raises (gs : list Girder.t) (ys : list Q)
    (i : nat) (g : Girder.t) :
  nth_error gs i = Some g ->
  (i < List.length ys)%nat ->
  get_shape g = None ->
  translate_girders gs ys = Raise TypeError.
Proof.
  revert ys i. induction gs as [| g0 gs IH]; intros ys i Hg Hi Hs.
  - destruct i; discriminate.
  - destruct ys as [| y0 ys]; [cbn in Hi; lia |].
    cbn [translate_girders].
    destruct i as [| i]; cbn [nth_error] in Hg.
    + injection Hg as ->. unfold translate. rewrite Hs. reflexivity.
    + cbn [List.length] in Hi.
      rewrite (IH ys i Hg ltac:(lia) Hs).
      unfold translate. destruct (get_shape g0); reflexivity.
Qed.

(** ** [position_components] on any model *)

Lemma position_components_inv (self self' : BridgeModel) :
  position_components self = Ok self' ->
  exists ys gs k k' w z p0 p0' p1 p1' rest,
    girder_positions_y self = Some ys /\
    translate_girders (girders self) ys = Ok gs /\
    deck self = Some k /\
    deck_width self = Some w /\
    deck_z_level self = Some z /\
    translate k 0 (inject_Z (- w) / 2) (inject_Z z) = Ok k' /\
    parapets self = p0 :: p1 :: rest /\
    translate p0 0 (- (inject_Z w / 2) - inject_Z PARAPET_WIDTH / 2)
      (inject_Z (z + deck_thickness self)) = Ok p0' /\
    translate p1 0 (inject_Z w / 2 - inject_Z PARAPET_WIDTH / 2)
      (inject_Z (z + deck_thickness self)) = Ok p1' /\
    self' =
      set_parapets (set_deck (set_girders self gs) k') (p0' :: p1' :: rest).
Proof.
  intros H. unfold position_components in H.
  apply bind_Ok in H. destruct H as (ys & Hys & H). apply getattr_Ok in Hys.
  apply bind_Ok in H. destruct H as (gs & Hgs & H).
  apply bind_Ok in H. destruct H as (k & Hk & H). apply getattr_Ok in Hk.
  apply bind_Ok in H. destruct H as (w & Hw & H). apply getattr_Ok in Hw.
  apply bind_Ok in H. destruct H as (z & Hz & H). apply getattr_Ok in Hz.
  apply bind_Ok in H. destruct H as (k' & Hk' & H).
  cbn [deck deck_width deck_z_level parapets deck_thickness
       set_girders set_deck set_parapets] in *.
  destruct (parapets self) as [| p0 [| p1 rest]] eqn:Hps.
  - discriminate.
  - cbn [getitem nth_error bind] in H.
    apply bind_Ok in H. destruct H as (p0' & _ & H). discriminate.
  - cbn [getitem nth_error bind] in H.
    apply bind_Ok in H. destruct H as (p0' & Hp0 & H).
    cbn [setitem getitem nth_error bind] in H.
    apply bind_Ok in H. destruct H as (p1' & Hp1 & H).
    injection H as <-.
    exists ys, gs, k, k', w, z, p0, p0', p1, p1', rest.
    repeat (split; [assumption || reflexivity |]).
    reflexivity.
Qed.

(** X1. Whenever [position_components] returns, it has changed nothing but
    shapes: the parameters, the layout and the assembly are as before and
    no component is added or removed.  Girder [i] is translated by
    [(0, Y_i, 0)] when there is an i-th position; the girders beyond the
    positions and the parapets beyond the first two are left as they
    were. *)
Theorem position_components_frame (self self' : BridgeModel) :
  position_components self = Ok self' ->
  same_but_components self self' /\
  List.length (girders self') = List.length (girders self) /\
  List.length (parapets self') = List.length (parapets self) /\
  (exists ys,
     girder_positions_y self = Some ys /\
     (forall i g y,
        nth_error (girders self) i = Some g ->
        nth_error ys i = Some y ->
        exists g',
          nth_error (girders self') i = Some g' /\
          translated_by g g' 0 y 0) /\
     (forall i, (List.length ys <= i)%nat ->
        nth_error (girders self') i = nth_error (girders self) i)) /\
  (forall i, (2 <= i)%nat ->
     nth_error (parapets self') i = nth_error (parapets self) i).
Proof.
  intros H.
  destruct (position_components_inv self self' H)
    as (ys & gs & k & k' & w & z & p0 & p0' & p1 & p1' & rest
        & Hys & Hgs & Hk & Hw & Hz & Hk' & Hps & Hp0 & Hp1 & ->).
  cbn [girders parapets set_parapets set_deck set_girders].
  split; [repeat split |].
  split; [exact (translate_girders_length _ _ _ Hgs) |].
  split; [now rewrite Hps |].
  split.
  - exists ys. split; [exact Hys |]. split.
    + intros i g y Hg Hy.
      exact (translate_girders_moved _ _ _ i g y Hgs Hg Hy).
    + intros i Hi. exact (translate_girders_kept _ _ _ i Hgs Hi).
  - intros i Hi. rewrite Hps.
    destruct i as [| [| i]]; [lia | lia | reflexivity].
Qed.

(** The default configuration after two calls of [create_components]:
    six girders for three positions and four parapets; the fourth girder
    and the third parapet are not moved. *)
Lemma position_components_frame_witness :
  exists m self',
    (m1 <- compute_layout (init 12000 3 3000 500 10 900 300 16 10 200) ;;
     calls 2 create_components m1) = Ok m /\
    position_components m = Ok self' /\
    List.length (girders self') = 6%nat /\
    nth_error (girders self') 3 = nth_error (girders m) 3 /\
    nth_error (parapets self') 2 = nth_error (parapets m) 2.
Proof.
  eexists. eexists.
  split; [vm_compute; reflexivity |].
  match goal with |- ?P /\ _ => assert (H : P) by (vm_compute; reflexivity) end.
  split; [exact H |].
  destruct (position_components_frame _ _ H)
    as (_ & Hlen & _ & (ys & Hys & _ & Hkept) & Hpar).
  injection Hys as <-.
  split; [exact Hlen |].
  split; [apply Hkept; simpl; lia | apply Hpar; lia].
Defined.

(** ** Calling the steps out of order *)

(** X2. The steps depend on one another through attributes that only the
    earlier steps create.  On a new model, whatever the arguments,
    [create_components], [position_components], [assemble] and [display]
    all raise [AttributeError]; after [compute_layout] alone,
    [position_components], [assemble] and [display] still do, for lack of
    a deck. *)
Theorem steps_out_of_order (L n s o a d bf tf tw t : Z) :
  create_components (init L n s o a d bf tf tw t) = Raise AttributeError /\
  position_components (init L n s o a d bf tf tw t) = Raise AttributeError /\
  assemble (init L n s o a d bf tf tw t) = Raise AttributeError /\
  display (init L n s o a d bf tf tw t) = Raise AttributeError /\
  (exists m1,
     compute_layout (init L n s o a d bf tf tw t) = Ok m1 /\
     position_components m1 = Raise AttributeError /\
     assemble m1 = Raise AttributeError /\
     display m1 = Raise AttributeError).
Proof.
  repeat (split; [reflexivity |]).
  eexists. split; [apply compute_layout_eq |].
  repeat split.
Qed.

(** ** [create_components] called again before placement *)

Lemma calls_snoc (k : nat) (method : BridgeModel -> result BridgeModel)
    (self : BridgeModel) :
  calls (S k) method self = (m <- calls k method self ;; method m).
Proof.
  revert self. induction k as [| k IH]; intros self.
  - cbn. destruct (method self); reflexivity.
  - change (calls (S (S k)) method self)
      with (m <- method self ;; calls (S k) method m).
    cbn [calls]. destruct (method self) as [m |]; cbn [bind]; [| reflexivity].
    apply IH.
Qed.

Lemma new_girder_same (a b : BridgeModel) :
  same_parameters a b -> new_girder a = new_girder b.
Proof.
  intros (HL & _ & _ & _ & _ & Hd & Hbf & Htf & Htw & _).
  unfold new_girder. now rewrite HL, Hd, Hbf, Htf, Htw.
Qed.

Lemma new_parapet_same (a b : BridgeModel) :
  same_parameters a b -> new_parapet a = new_parapet b.
Proof.
  intros (HL & _). unfold new_parapet. now rewrite HL.
Qed.

Lemma translate_girders_map_app (h : Q -> Girder.t) (f : Q -> Shape)
    (ys : list Q) (rest : list Girder.t) :
  (forall y, get_shape (h y) = Some (f y)) ->
  translate_girders (map h ys ++ rest) ys =
  Ok (map (fun y => set_shape (h y) (translation (f y) 0 y 0)) ys ++ rest).
Proof.
  intros Hh. induction ys as [| y ys IH].
  - destruct rest; reflexivity.
  - cbn [map app translate_girders].
    rewrite (translate_eq (h y) (f y) 0 y 0 (Hh y)). cbn [bind].
    rewrite IH. reflexivity.
Qed.

Lemma map_const_repeat {A B : Type} (b : B) (l : list A) :
  map (fun _ => b) l = repeat b (List.length l).
Proof.
  induction l as [| x l IH]; cbn; [reflexivity | now rewrite IH].
Qed.

Lemma create_components_inv (self self' : BridgeModel) :
  create_components self = Ok self' ->
  exists ys w,
    girder_positions_y self = Some ys /\
    deck_width self = Some w /\
    self' =
      set_parapets
        (set_deck
           (set_girders self
              (girders self ++ repeat (new_girder self) (List.length ys)))
           (new_deck self w))
        (parapets self ++ [new_parapet self; new_parapet self]).
Proof.
  intros H.
  destruct (girder_positions_y self) as [ys |] eqn:Hys;
    [| unfold create_components in H; rewrite Hys in H; discriminate].
  destruct (deck_width self) as [w |] eqn:Hw.
  - rewrite (create_components_eq self ys w Hys Hw) in H.
    injection H as <-. exists ys, w. repeat split.
  - unfold create_components in H. rewrite Hys in H.
    cbn [getattr bind] in H. rewrite girder_loop in H.
    cbn [deck_width set_girders] in H. rewrite Hw in H. discriminate.
Qed.

Lemma calls_create_components_level (k : nat) (self self' : BridgeModel) :
  calls k create_components self = Ok self' ->
  deck_z_level self' = deck_z_level self /\
  assembly_shape self' = assembly_shape self.
Proof.
  revert self. induction k as [| k IH]; intros self H; cbn [calls] in H.
  - injection H as <-. split; reflexivity.
  - apply bind_Ok in H. destruct H as (m & Hm & H).
    destruct (create_components_inv self m Hm) as (ys & w & _ & _ & ->).
    destruct (IH _ H) as (Hz & Ha). rewrite Hz, Ha. split; reflexivity.
Qed.

(** X3. [position_components] places one set of components only.  When
    [create_components] has been called [k + 1] times on a new model, the
    placement still returns; it moves the first [len(girder_positions_y)]
    girders and the first two parapets, and the [k] further sets of
    girders and parapets keep the shape the factory gave them, at the
    origin. *)
Theorem position_after_repeated_create (L n s o a d bf tf tw t : Z)
    (k : nat) :
  exists m1 mk mp p0 p1,
    compute_layout (init L n s o a d bf tf tw t) = Ok m1 /\
    calls (S k) create_components m1 = Ok mk /\
    position_components mk = Ok mp /\
    girders mp =
      map (fun y =>
             Girder.mk d bf tf tw L
               (Some (translation (create_i_section d bf tf tw L) 0 y 0)))
          (positions_of s n)
      ++ repeat (Girder.mk d bf tf tw L
                   (Some (create_i_section d bf tf tw L)))
           (k * List.length (positions_of s n)) /\
    parapets mp =
      p0 :: p1
      :: repeat (Parapet.mk PARAPET_WIDTH PARAPET_HEIGHT L
                   (Some (create_rectangular_prism
                            PARAPET_WIDTH PARAPET_HEIGHT L)))
           (2 * k) /\
    (exists dy0 dy1 dz : Q,
       Parapet.shape p0 =
         Some (translation
                 (create_rectangular_prism PARAPET_WIDTH PARAPET_HEIGHT L)
                 0 dy0 dz) /\
       Parapet.shape p1 =
         Some (translation
                 (create_rectangular_prism PARAPET_WIDTH PARAPET_HEIGHT L)
                 0 dy1 dz)).
Proof.
  set (m0 := init L n s o a d bf tf tw t).
  set (ys := positions_of s n).
  set (w := (s * (n - 1) + 2 * o)%Z).
  pose proof (compute_layout_eq m0) as H1.
  set (m1 := set_deck_z_level _ _) in H1.
  destruct (calls_create_components k m1 ys w eq_refl eq_refl)
    as (mk' & Hk' & Hys' & Hw' & Hg' & Hp' & Hsame).
  destruct (calls_create_components_level k m1 mk' Hk') as (Hz' & _).
  pose proof (create_components_eq mk' ys w Hys' Hw') as Hc.
  rewrite <- (new_girder_same m1 mk' Hsame) in Hc.
  rewrite <- (new_parapet_same m1 mk' Hsame) in Hc.
  rewrite Hg', Hp' in Hc.
  cbn [girders parapets m1 m0 init
       set_deck_z_level set_girder_positions_y set_deck_width app] in Hc.
  set (g := new_girder m1) in *. set (p := new_parapet m1) in *.
  replace (repeat g (k * List.length ys) ++ repeat g (List.length ys))
    with (map (fun _ : Q => g) ys ++ repeat g (k * List.length ys)) in Hc
    by (rewrite map_const_repeat, <- !repeat_app; f_equal; lia).
  replace (repeat p (2 * k) ++ [p; p])
    with (p :: p :: repeat p (2 * k)) in Hc
    by (change [p; p] with (repeat p 2);
        change (p :: p :: repeat p (2 * k))
          with (repeat p 2 ++ repeat p (2 * k));
        rewrite <- !repeat_app; f_equal; lia).
  match type of Hc with _ = Ok ?m => set (mk := m) in Hc end.
  assert (Hpos : exists k0 sk,
             position_components mk =
             Ok (set_parapets
                   (set_deck
                      (set_girders mk
                         (map (fun y =>
                                 set_shape g
                                   (translation
                                      (create_i_section d bf tf tw L) 0 y 0))
                              ys
                          ++ repeat g (k * List.length ys)))
                      (set_shape k0
                         (translation sk 0 (inject_Z (- w) / 2)
                            (inject_Z d))))
                   (set_shape p
                      (translation
                         (create_rectangular_prism
                            PARAPET_WIDTH PARAPET_HEIGHT L) 0
                         (- (inject_Z w / 2) - inject_Z PARAPET_WIDTH / 2)
                         (inject_Z (d + deck_thickness mk)))
                    :: set_shape p
                         (translation
                            (create_rectangular_prism
                               PARAPET_WIDTH PARAPET_HEIGHT L) 0
                            (inject_Z w / 2 - inject_Z PARAPET_WIDTH / 2)
                            (inject_Z (d + deck_thickness mk)))
                    :: repeat p (2 * k)))).
  { do 2 eexists.
    apply (position_components_eq mk ys); try reflexivity.
    - exact Hys'.
    - cbn [girders mk set_parapets set_deck set_girders].
      apply (translate_girders_map_app (fun _ => g)
               (fun _ => create_i_section d bf tf tw L)).
      reflexivity.
    - exact Hw'.
    - exact Hz'. }
  destruct Hpos as (k0 & sk & Hpos).
  do 5 eexists.
  split; [exact H1 |].
  split; [rewrite calls_snoc, Hk'; exact Hc |].
  split; [exact Hpos |].
  cbn [girders parapets set_parapets set_deck set_girders].
  split; [reflexivity |].
  split; [reflexivity |].
  do 3 eexists. split; reflexivity.
Qed.

(** ** [position_components] called twice *)

(** X4. [position_components] is not idempotent: a second call on the
    model of the normal flow returns and translates every component a
    second time by the same vector, on top of the first translation. *)
Theorem position_components_twice (L n s o a d bf tf tw t : Z) :
  exists m1 m2 m3 m3' dyk dy0 dy1 : _,
    compute_layout (init L n s o a d bf tf tw t) = Ok m1 /\
    create_components m1 = Ok m2 /\
    position_components m2 = Ok m3 /\
    position_components m3 = Ok m3' /\
    m3' <> m3 /\
    girders m3' =
      map (fun y =>
             Girder.mk d bf tf tw L
               (Some (translation
                        (translation (create_i_section d bf tf tw L) 0 y 0)
                        0 y 0)))
          (positions_of s n) /\
    deck m3' =
      Some (Deck.mk (s * (n - 1) + 2 * o) t L
              (Some (translation
                       (translation
                          (create_rectangular_prism
                             (s * (n - 1) + 2 * o) t L)
                          0 dyk (inject_Z d))
                       0 dyk (inject_Z d)))) /\
    parapets m3' =
      [ Parapet.mk PARAPET_WIDTH PARAPET_HEIGHT L
          (Some (translation
                   (translation
                      (create_rectangular_prism
                         PARAPET_WIDTH PARAPET_HEIGHT L)
                      0 dy0 (inject_Z (d + t)))
                   0 dy0 (inject_Z (d + t))));
        Parapet.mk PARAPET_WIDTH PARAPET_HEIGHT L
          (Some (translation
                   (translation
                      (create_rectangular_prism
                         PARAPET_WIDTH PARAPET_HEIGHT L)
                      0 dy1 (inject_Z (d + t)))
                   0 dy1 (inject_Z (d + t)))) ].
Proof.
  destruct (flow_from_init L n s o a d bf tf tw t)
    as (m1 & m2 & m3 & m4 & H1 & H2 & H3 & _ & _ & E3 & _).
  exists m1, m2, m3. do 4 eexists.
  split; [exact H1 |]. split; [exact H2 |]. split; [exact H3 |].
  split.
  { rewrite E3.
    eapply position_components_eq; try reflexivity.
    cbn [girders].
    rewrite <- (app_nil_r (map _ (positions_of s n))) at 1.
    rewrite (translate_girders_map_app _
               (fun y => translation (create_i_section d bf tf tw L) 0 y 0))
      by reflexivity.
    rewrite app_nil_r. reflexivity. }
  rewrite E3.
  cbn [girders parapets deck set_parapets set_deck set_girders].
  split.
  { intros Heq. apply (f_equal deck) in Heq. cbn [deck] in Heq.
    injection Heq as Heq. discriminate Heq. }
  split; [reflexivity |]. split; reflexivity.
Qed.

(** ** [assemble] on any model *)

Lemma get_shapes_Ok {C : Type} `{BridgeComponent C}
    (l : list C) (ss : list Shape) :
  get_shapes l = Ok ss -> map get_shape l = map Some ss.
Proof.
  revert ss. induction l as [| c l IH]; intros ss Hs; cbn [get_shapes] in Hs.
  - injection Hs as <-. reflexivity.
  - destruct (get_shape c) as [sc |] eqn:Hc; [| discriminate].
    apply bind_Ok in Hs. destruct Hs as (rest & Hrest & Hs).
    injection Hs as <-. cbn [map]. rewrite Hc. f_equal. now apply IH.
Qed.

Lemma get_shapes_total {C : Type} `{BridgeComponent C} (l : list C) :
  Forall (fun c => get_shape c <> None) l ->
  exists ss, get_shapes l = Ok ss.
Proof.
  induction 1 as [| c l Hc _ IH]; cbn [get_shapes].
  - eexists. reflexivity.
  - destruct (get_shape c) as [sc |]; [| contradiction].
    destruct IH as (ss & ->). eexists. reflexivity.
Qed.

Lemma get_shapes_Ok_Forall {C : Type} `{BridgeComponent C}
    (l : list C) (ss : list Shape) :
  get_shapes l = Ok ss -> Forall (fun c => get_shape c <> None) l.
Proof.
  revert ss. induction l as [| c l IH]; intros ss Hs; cbn [get_shapes] in Hs.
  - constructor.
  - destruct (get_shape c) as [sc |] eqn:Hc; [| discriminate].
    apply bind_Ok in Hs. destruct Hs as (rest & Hrest & _).
    constructor; [rewrite Hc; discriminate | now apply (IH rest)].
Qed.

Lemma assemble_inv (self self' : BridgeModel) :
  assemble self = Ok self' ->
  exists gs k sk ps,
    get_shapes (girders self) = Ok gs /\
    deck self = Some k /\
    get_shape k = Some sk /\
    get_shapes (parapets self) = Ok ps /\
    self' = set_assembly_shape self (TopoDS_Compound (gs ++ [sk] ++ ps)).
Proof.
  intros H. unfold assemble in H.
  apply bind_Ok in H. destruct H as (gs & Hgs & H).
  apply bind_Ok in H. destruct H as (k & Hk & H). apply getattr_Ok in Hk.
  apply bind_Ok in H. destruct H as (ks & Hks & H).
  apply bind_Ok in H. destruct H as (ps & Hps & H).
  injection H as <-.
  cbn [get_shapes] in Hks.
  destruct (get_shape k) as [sk |] eqn:Hsk; [| discriminate].
  cbn [bind] in Hks. injection Hks as <-.
  exists gs, k, sk, ps. repeat split; assumption.
Qed.

(** X5. Whenever [assemble] returns, the assembly is a compound whose
    children are the shapes of the girders, then of the deck, then of the
    parapets, one per component; nothing else in the model has changed;
    and a second call returns the same model: the assembly is replaced,
    not extended. *)
Theorem assemble_replaces (self self' : BridgeModel) :
  assemble self = Ok self' ->
  exists children k,
    assembly_shape self' = Some (TopoDS_Compound children) /\
    deck self = Some k /\
    map Some children =
      map get_shape (girders self) ++ [get_shape k]
      ++ map get_shape (parapets self) /\
    List.length children =
      (List.length (girders self) + 1 + List.length (parapets self))%nat /\
    girders self' = girders self /\
    parapets self' = parapets self /\
    deck self' = deck self /\
    same_parameters self self' /\
    deck_width self' = deck_width self /\
    girder_positions_y self' = girder_positions_y self /\
    deck_z_level self' = deck_z_level self /\
    assemble self' = Ok self'.
Proof.
  intros H.
  destruct (assemble_inv self self' H)
    as (gs & k & sk & ps & Hgs & Hk & Hsk & Hps & ->).
  exists (gs ++ [sk] ++ ps), k.
  cbn [assembly_shape girders parapets deck deck_width girder_positions_y
       deck_z_level set_assembly_shape].
  split; [reflexivity |]. split; [exact Hk |].
  split.
  { rewrite !map_app, (get_shapes_Ok _ _ Hgs), (get_shapes_Ok _ _ Hps), Hsk.
    reflexivity. }
  split.
  { rewrite !length_app.
    rewrite <- (length_map Some gs), <- (length_map Some ps).
    rewrite <- (get_shapes_Ok _ _ Hgs), <- (get_shapes_Ok _ _ Hps).
    rewrite !length_map. cbn [List.length]. lia. }
  repeat (split; [reflexivity |]).
  split; [repeat split |].
  repeat (split; [reflexivity |]).
  unfold assemble.
  cbn [girders parapets deck set_assembly_shape].
  rewrite Hgs, Hk. cbn [getattr bind get_shapes]. rewrite Hsk.
  cbn [bind]. rewrite Hps. reflexivity.
Qed.

(** The model of [main] before assembly: the compound has six children. *)
Lemma assemble_replaces_witness :
  exists m3 m4 children,
    (m1 <- compute_layout (init 12000 3 3000 500 10 900 300 16 10 200) ;;
     m2 <- create_components m1 ;;
     position_components m2) = Ok m3 /\
    assemble m3 = Ok m4 /\
    assembly_shape m4 = Some (TopoDS_Compound children) /\
    List.length children = 6%nat /\
    assemble m4 = Ok m4.
Proof.
  eexists. eexists.
  match goal with |- exists c, ?P /\ ?Q /\ _ =>
    assert (H3 : P) by (vm_compute; reflexivity);
    assert (H4 : Q) by (vm_compute; reflexivity)
  end.
  destruct (assemble_replaces _ _ H4)
    as (children & k & Ha & _ & _ & Hlen & _ & _ & _ & _ & _ & _ & _ & Hagain).
  exists children.
  split; [exact H3 |]. split; [exact H4 |]. split; [exact Ha |].
  split; [exact Hlen | exact Hagain].
Defined.

(** X6. [assemble] returns exactly when every girder, the deck and every
    parapet has its geometry: a component that was appended without
    [create_geometry], or a missing deck, makes it raise. *)
Theorem assemble_returns_iff (self : BridgeModel) :
  (exists self', assemble self = Ok self') <->
  (Forall (fun g => get_shape g <> None) (girders self) /\
   (exists k, deck self = Some k /\ get_shape k <> None) /\
   Forall (fun p => get_shape p <> None) (parapets self)).
Proof.
  split.
  - intros (self' & H).
    destruct (assemble_inv self self' H)
      as (gs & k & sk & ps & Hgs & Hk & Hsk & Hps & _).
    split; [exact (get_shapes_Ok_Forall _ _ Hgs) |].
    split; [| exact (get_shapes_Ok_Forall _ _ Hps)].
    exists k. split; [exact Hk | rewrite Hsk; discriminate].
  - intros (Hg & (k & Hk & Hsk) & Hp).
    destruct (get_shapes_total _ Hg) as (gs & Hgs).
    destruct (get_shapes_total _ Hp) as (ps & Hps).
    destruct (get_shape k) as [sk |] eqn:Hsk'; [| contradiction].
    eexists. unfold assemble.
    rewrite Hgs, Hk. cbn [getattr bind get_shapes]. rewrite Hsk'.
    cbn [bind]. rewrite Hps. reflexivity.
Qed.

(** A girder appended without geometry to the placed model of [main]. *)
Lemma assemble_returns_iff_witness :
  exists m3,
    (m1 <- compute_layout (init 12000 3 3000 500 10 900 300 16 10 200) ;;
     m2 <- create_components m1 ;;
     position_components m2) = Ok m3 /\
    (exists m4, assemble m3 = Ok m4) /\
    ~ (exists m4,
         assemble
           (set_girders m3 (girders m3 ++ [Girder.init 900 300 16 10 12000]))
         = Ok m4).
Proof.
  eexists.
  split; [vm_compute; reflexivity |].
  split.
  - apply assemble_returns_iff. cbn.
    repeat constructor; try discriminate.
    eexists. split; [reflexivity | discriminate].
  - intros Hex. apply assemble_returns_iff in Hex.
    destruct Hex as (Hg & _). rewrite Forall_forall in Hg.
    apply (Hg (Girder.init 900 300 16 10 12000)); [| reflexivity].
    cbn. do 3 right. left. reflexivity.
Defined.

(** ** What is shown and written *)






(** ** Geometry of a component *)

(** X8. [create_geometry] starts from the dimensions alone: called on a
    girder, deck or parapet that was translated or rotated, it gives what
    it gives on the component before the transformation, so the placement
    is lost; and calling it twice is calling it once. *)
Theorem create_geometry_resets :
  (forall (g g' : Girder.t) (dx dy dz : Q),
     translate g dx dy dz = Ok g' ->
     Girder.create_geometry g' = Girder.create_geometry g) /\
  (forall (g g' : Girder.t) (p v : gp_Vec) (angle : Q),
     rotate g p v angle = Ok g' ->
     Girder.create_geometry g' = Girder.create_geometry g) /\
  (forall (k k' : Deck.t) (dx dy dz : Q),
     translate k dx dy dz = Ok k' ->
     Deck.create_geometry k' = Deck.create_geometry k) /\
  (forall (k k' : Deck.t) (p v : gp_Vec) (angle : Q),
     rotate k p v angle = Ok k' ->
     Deck.create_geometry k' = Deck.create_geometry k) /\
  (forall (q q' : Parapet.t) (dx dy dz : Q),
     translate q dx dy dz = Ok q' ->
     Parapet.create_geometry q' = Parapet.create_geometry q) /\
  (forall (q q' : Parapet.t) (p v : gp_Vec) (angle : Q),
     rotate q p v angle = Ok q' ->
     Parapet.create_geometry q' = Parapet.create_geometry q) /\
  (forall g : Girder.t,
     Girder.create_geometry (Girder.create_geometry g) =
     Girder.create_geometry g) /\
  (forall k : Deck.t,
     Deck.create_geometry (Deck.create_geometry k) =
     Deck.create_geometry k) /\
  (forall q : Parapet.t,
     Parapet.create_geometry (Parapet.create_geometry q) =
     Parapet.create_geometry q).
Proof.
  repeat split; intros;
    try match goal with
        | H : translate ?c _ _ _ = Ok _ |- _ =>
            unfold translate in H;
            destruct (get_shape c); [injection H as <- | discriminate]
        | H : rotate ?c _ _ _ = Ok _ |- _ =>
            unfold rotate in H;
            destruct (get_shape c); [injection H as <- | discriminate]
        end;
    reflexivity.
Qed.

(** The girder of [test_transformations], translated by (100, 200, 300)
    and then re-created. *)
Lemma create_geometry_resets_witness :
  exists g',
    translate (Girder.create_geometry (Girder.init 900 300 16 10 12000))
      100 200 300 = Ok g' /\
    Girder.shape g' <>
      Girder.shape (Girder.create_geometry (Girder.init 900 300 16 10 12000)) /\
    Girder.create_geometry g' =
      Girder.create_geometry (Girder.init 900 300 16 10 12000).
Proof.
  eexists.
  match goal with |- ?P /\ _ => assert (H : P) by reflexivity end.
  split; [exact H |].
  split; [discriminate |].
  rewrite (proj1 create_geometry_resets _ _ _ _ _ H).
  reflexivity.
Defined.

(** ** The test script *)









(** ** More on the layout *)

Lemma half_zero (a : Z) : inject_Z a / 2 == 0 <-> a = 0%Z.
Proof.
  split.
  - intros H.
    assert (H' : inject_Z a == inject_Z 0).
    { change (inject_Z 0) with 0.
      setoid_replace (inject_Z a) with (inject_Z a / 2 * 2) by field.
      rewrite H. reflexivity. }
    exact (proj1 (inject_Z_injective a 0) H').
  - intros ->. reflexivity.
Qed.

Lemma positions_eq_nth_error (ys zs : list Q) (i : nat) (y : Q) :
  positions_eq ys zs ->
  nth_error ys i = Some y ->
  y == nth i zs 0.
Proof.
  intros H. revert i. induction H as [| y0 z ys zs Hyz _ IH]; intros i Hi.
  - destruct i; discriminate.
  - destruct i as [| i]; cbn [nth_error nth] in *.
    + injection Hi as <-. exact Hyz.
    + now apply IH.
Qed.

(** X11. The outermost girder lines lie [overhang] inside the edges of the
    deck.  With [int] parameters, at least one girder and
    [|spacing * (n_girders - 1)|] below [2^53], [compute_layout] in
    binary64 returns the [int] deck width
    [w = spacing * (n_girders - 1) + 2 * overhang] and [n_girders]
    positions, of which the first has the value [-w/2 + overhang] and the
    last the value [w/2 - overhang]. *)
Theorem compute_layout_edge_offset (s n o d : Z) :
  (1 <= n)%Z ->
  (Z.abs (s * (n - 1)) < 2 ^ 53)%Z ->
  exists (ys : list Q) (w : Z) (first last : Q),
    compute_layout_float (Int s) n (Int o) (Int d) =
      Ok (Int w, map finite ys, Int d) /\
    Z.of_nat (List.length ys) = n /\
    nth_error ys 0 = Some first /\
    nth_error ys (List.length ys - 1) = Some last /\
    first == - (inject_Z w / 2) + inject_Z o /\
    last == inject_Z w / 2 - inject_Z o.
Proof.
  intros Hn Hb.
  destruct (compute_layout_float_exact s n o d Hb) as (ys & Hrun & Hys).
  assert (Hlen : List.length ys = Z.to_nat n).
  { rewrite (Forall2_length Hys). apply positions_of_length. }
  destruct (nth_error ys 0) as [first |] eqn:Hfirst;
    [| apply nth_error_None in Hfirst; lia].
  destruct (nth_error ys (List.length ys - 1)) as [last |] eqn:Hlast;
    [| apply nth_error_None in Hlast; lia].
  exists ys, (s * (n - 1) + 2 * o)%Z, first, last.
  split; [exact Hrun |]. split; [lia |].
  split; [exact Hfirst |]. split; [exact Hlast |].
  rewrite (positions_eq_nth_error _ _ _ _ Hys Hfirst).
  rewrite (positions_eq_nth_error _ _ _ _ Hys Hlast).
  rewrite Hlen, !positions_of_nth_half by lia.
  split.
  - setoid_replace (inject_Z o) with (inject_Z (2 * o) / 2)
      by (now rewrite half_double).
    setoid_replace (- (inject_Z (s * (n - 1) + 2 * o) / 2))
      with (inject_Z (- (s * (n - 1) + 2 * o)) / 2)
      by (rewrite inject_Z_opp; field).
    rewrite half_sum.
    replace ((2 * Z.of_nat 0 - (n - 1)) * s)%Z
      with (- (s * (n - 1) + 2 * o) + 2 * o)%Z by (cbn; ring).
    reflexivity.
  - setoid_replace (inject_Z o) with (inject_Z (2 * o) / 2)
      by (now rewrite half_double).
    rewrite half_diff.
    replace (Z.of_nat (Z.to_nat n - 1)) with (n - 1)%Z by lia.
    replace ((2 * (n - 1) - (n - 1)) * s)%Z
      with (s * (n - 1) + 2 * o - 2 * o)%Z by ring.
    reflexivity.
Qed.

(** The default configuration: deck width 7000, overhang 500, outer
    girder lines at -3000 and 3000. *)
Lemma compute_layout_edge_offset_witness :
  (1 <= 3)%Z /\ (Z.abs (3000 * (3 - 1)) < 2 ^ 53)%Z /\
  exists (ys : list Q) (first last : Q),
    compute_layout_float (Int 3000) 3 (Int 500) (Int 900) =
      Ok (Int 7000, map finite ys, Int 900) /\
    nth_error ys 0 = Some first /\
    nth_error ys (List.length ys - 1) = Some last /\
    first == -3000 # 1 /\
    last == 3000.
Proof.
  split; [lia |]. split; [simpl; lia |].
  destruct (compute_layout_edge_offset 3000 3 500 900)
    as (ys & w & first & last & Hrun & _ & Hf & Hl & Ef & El);
    [lia | simpl; lia |].
  assert (Hw : w = 7000%Z).
  { destruct (compute_layout_float_exact 3000 3 500 900) as (ys' & Hrun' & _);
      [simpl; lia |].
    rewrite Hrun' in Hrun. injection Hrun as Hw _. symmetry. exact Hw. }
  subst w.
  exists ys, first, last.
  split; [exact Hrun |]. split; [exact Hf |]. split; [exact Hl |].
  rewrite Ef, El. split; reflexivity.
Defined.

(** X12. Whether a girder runs along the axis Y = 0 depends on the parity
    of the count.  With [int] parameters, at least one girder and
    [|spacing * (n_girders - 1)|] below [2^53], [compute_layout] in
    binary64 returns [n_girders] positions; with an odd count the one in
    the middle, of index [(n_girders - 1) / 2], is 0; with an even count
    and a spacing other than 0 none of them is 0. *)
Theorem compute_layout_parity (s n o d : Z) :
  (1 <= n)%Z ->
  (Z.abs (s * (n - 1)) < 2 ^ 53)%Z ->
  exists (ys : list Q) (w : Z),
    compute_layout_float (Int s) n (Int o) (Int d) =
      Ok (Int w, map finite ys, Int d) /\
    Z.of_nat (List.length ys) = n /\
    (Z.odd n = true ->
     exists middle : Q,
       nth_error ys (Z.to_nat ((n - 1) / 2)) = Some middle /\
       middle == 0) /\
    (Z.even n = true -> s <> 0%Z -> Forall (fun y => ~ y == 0) ys).
Proof.
  intros Hn Hb.
  destruct (compute_layout_float_exact s n o d Hb) as (ys & Hrun & Hys).
  assert (Hlen : List.length ys = Z.to_nat n).
  { rewrite (Forall2_length Hys). apply positions_of_length. }
  exists ys, (s * (n - 1) + 2 * o)%Z.
  split; [exact Hrun |]. split; [lia |].
  split.
  - intros Hodd.
    rewrite Z.odd_spec in Hodd. destruct Hodd as (q & Hq).
    assert (Hdiv : ((n - 1) / 2 = q)%Z).
    { replace (n - 1)%Z with (q * 2)%Z by lia. apply Z.div_mul. lia. }
    rewrite Hdiv.
    destruct (nth_error ys (Z.to_nat q)) as [middle |] eqn:Hmid;
      [| apply nth_error_None in Hmid; lia].
    exists middle. split; [reflexivity |].
    rewrite (positions_eq_nth_error _ _ _ _ Hys Hmid).
    rewrite positions_of_nth_half by lia.
    apply half_zero.
    replace (Z.of_nat (Z.to_nat q)) with q by lia.
    replace (2 * q - (n - 1))%Z with 0%Z by lia.
    reflexivity.
  - intros Heven Hs.
    rewrite Z.even_spec in Heven. destruct Heven as (q & Hq).
    apply Forall_forall. intros y Hy H0.
    apply In_nth_error in Hy. destruct Hy as (i & Hi).
    assert (Hlt : (i < Z.to_nat n)%nat).
    { rewrite <- Hlen. apply nth_error_Some. rewrite Hi. discriminate. }
    rewrite (positions_eq_nth_error _ _ _ _ Hys Hi) in H0.
    rewrite positions_of_nth_half in H0 by exact Hlt.
    apply (proj1 (half_zero _)) in H0.
    apply Z.eq_mul_0 in H0. destruct H0 as [H0 | H0]; [lia |].
    apply Hs. exact H0.
Qed.

(** Three girders: the second is at 0.  Four girders spaced 2500: none of
    the four is at 0. *)
Lemma compute_layout_parity_witness :
  (1 <= 3)%Z /\ (Z.abs (3000 * (3 - 1)) < 2 ^ 53)%Z /\
  (1 <= 4)%Z /\ (Z.abs (2500 * (4 - 1)) < 2 ^ 53)%Z /\
  (exists (ys : list Q) (w : Z) (middle : Q),
     compute_layout_float (Int 3000) 3 (Int 500) (Int 900) =
       Ok (Int w, map finite ys, Int 900) /\
     List.length ys = 3%nat /\
     nth_error ys 1 = Some middle /\
     middle == 0) /\
  (exists (ys : list Q) (w : Z),
     compute_layout_float (Int 2500) 4 (Int 500) (Int 1000) =
       Ok (Int w, map finite ys, Int 1000) /\
     List.length ys = 4%nat /\
     Forall (fun y => ~ y == 0) ys).
Proof.
  split; [lia |]. split; [simpl; lia |].
  split; [lia |]. split; [simpl; lia |].
  split.
  - destruct (compute_layout_parity 3000 3 500 900)
      as (ys & w & Hrun & Hlen & Hodd & _); [lia | simpl; lia |].
    destruct (Hodd eq_refl) as (middle & Hmid & H0).
    exists ys, w, middle.
    split; [exact Hrun |]. split; [lia |].
    split; [exact Hmid | exact H0].
  - destruct (compute_layout_parity 2500 4 500 1000)
      as (ys & w & Hrun & Hlen & _ & Heven); [lia | simpl; lia |].
    exists ys, w.
    split; [exact Hrun |]. split; [lia |].
    apply Heven; [reflexivity | lia].
Defined.

(** ** A bridge without girders *)




(** ** Components without geometry, and a stale assembly *)

(** X17. [position_components] raises [TypeError] when one of the girders
    it reaches, that is one with a Y-position for its index, has no
    geometry yet. *)
Theorem position_components_needs_geometry (self : BridgeModel)
    (ys : list Q) (i : nat) (g : Girder.t) :
  girder_positions_y self = Some ys ->
  nth_error (girders self) i = Some g ->
  (i < List.length ys)%nat ->
  get_shape g = None ->
  position_components self = Raise TypeError.
Proof.
  intros Hys Hg Hi Hs. unfold position_components.
  rewrite Hys. cbn [getattr bind].
  rewrite (translate_girders_raises _ _ i g Hg Hi Hs).
  reflexivity.
Qed.

(** The default configuration after [compute_layout], with one girder
    appended that never went through [create_geometry]. *)
Lemma position_components_needs_geometry_witness :
  exists m1,
    compute_layout (init 12000 3 3000 500 10 900 300 16 10 200) = Ok m1 /\
    position_components
      (set_girders m1 [Girder.init 900 300 16 10 12000]) = Raise TypeError.
Proof.
  eexists. split; [apply compute_layout_eq |].
  eapply (position_components_needs_geometry _ _ 0
            (Girder.init 900 300 16 10 12000)).
  - reflexivity.
  - reflexivity.
  - simpl. lia.
  - reflexivity.
Defined.

(** X18. Whenever [create_components] returns, it has put a new deck, of
    the computed width and not yet placed, in the place of any deck the
    model had, and has left the parameters, the layout and the assembly as
    they were: an assembly made before the call is kept and does not
    contain the components just created. *)
Theorem create_components_keeps_assembly (self self' : BridgeModel) :
  create_components self = Ok self' ->
  exists w,
    deck_width self = Some w /\
    deck self' =
      Some (Deck.mk w (deck_thickness self) (span_length self)
              (Some (create_rectangular_prism w (deck_thickness self)
                       (span_length self)))) /\
    assembly_shape self' = assembly_shape self /\
    same_parameters self self' /\
    deck_width self' = deck_width self /\
    girder_positions_y self' = girder_positions_y self /\
    deck_z_level self' = deck_z_level self.
Proof.
  intros H.
  destruct (create_components_inv self self' H) as (ys & w & Hys & Hw & ->).
  exists w. split; [exact Hw |].
  cbn [deck assembly_shape deck_width girder_positions_y deck_z_level
       set_parapets set_deck set_girders].
  repeat split.
Qed.

(** The model at the end of [main], then one more [create_components]:
    six girders and four parapets, but the assembly still has the six
    children it had. *)
Lemma create_components_keeps_assembly_witness :
  exists m evs m' children,
    main = Ok (m, evs) /\
    create_components m = Ok m' /\
    List.length (girders m') = 6%nat /\
    List.length (parapets m') = 4%nat /\
    assembly_shape m' = Some (TopoDS_Compound children) /\
    List.length children = 6%nat.
Proof.
  eexists. eexists. eexists.
  match goal with |- exists c, ?P /\ ?Q /\ _ =>
    assert (Hm : P) by (vm_compute; reflexivity);
    assert (Hc : Q) by (vm_compute; reflexivity)
  end.
  destruct (create_components_keeps_assembly _ _ Hc) as (w & _ & _ & Ha & _).
  eexists.
  split; [exact Hm |]. split; [exact Hc |].
  split; [reflexivity |]. split; [reflexivity |].
  split; [rewrite Ha; reflexivity | reflexivity].
Defined.
